(** * neural_net_robustness: the weight-tree loader and the acquisition script

    A shallow embedding of [weights/__init__.py] (module [Weights]) and of
    [download_data.py] (module [DownloadData]), with the properties of
    their natural-language specification stated and proved over it.

    Python dictionaries are stdpp finite maps ([gmap]); the weight tree is a
    tree nested through [gmap]; an uncaught Python exception is the [Err]
    outcome of a computation. *)

From stdpp Require Import gmap strings list fin_maps.

#[local] Set Warnings "-register-all".
#[local] Open Scope string_scope.
#[local] Open Scope list_scope.

(** ** Outcomes of Python calls *)

(** The exceptions the two modules can raise.  Assertion messages keep their
    arguments as data instead of a formatted string. *)
Inductive assert_msg : Type :=
  | NoTruthsConverted
  | NoImagesFound
  | CountDiffers (images truths : nat)
  | KeysDiffer (only_in_images only_in_truths : gset string)
  | NoTarredImages
  | BareAssert.

Inductive exn : Type :=
  | KeyError (k : string)
  | IndexError
  | TypeError
  | ValueError
  | OSError (filepath : string)
  | AssertionError (m : assert_msg)
  | UnboundLocalError (var : string)
  | FileNotFoundError (p : list string)
  | FileExistsError (p : list string)
  | IsADirectoryError (p : list string)
  | NotADirectoryError (p : list string)
  | ShutilError (p : list string)
  | EOFError
  | UnpicklingError
  | URLError (url : string)
  | ContentTooShortError (url : string)
  | ReadError (p : list string)
  | ParseError (p : list string)
  | AttributeError
  | UnicodeDecodeError.

Inductive outcome (A : Type) : Type :=
  | Ok (a : A)
  | Err (e : exn).
Arguments Ok {A} a.
Arguments Err {A} e.

Definition obind {A B} (o : outcome A) (k : A → outcome B) : outcome B :=
  match o with
  | Ok a => k a
  | Err e => Err e
  end.

(** * weights/__init__.py *)
Module Weights.

(** An entry of a nested container: an object with an [items] method (a
    group, a dictionary) or anything else (a leaf). *)
Inductive tree (A : Type) : Type :=
  | Leaf (x : A)
  | Group (entries : gmap string (tree A)).
Arguments Leaf {A} x.
Arguments Group {A} entries.

(** The value [walk] stores under a key: the [if]/[else] of its loop body.
    The branch for a group is the recursive call [walk(item, collect,
    key_chain=sub_key_chain)], whose own loop is the [map_fold]. *)
Fixpoint walk_item {A B} (collect : list string → A → B)
    (sub_key_chain : list string) (item : tree A) : tree B :=
  match item with
  | Group entries =>
      Group (map_fold
               (λ key item' result,
                  <[key := walk_item collect (sub_key_chain ++ [key]) item']> result)
               ∅ entries)
  | Leaf x => Leaf (collect sub_key_chain x)
  end.

(** [walk(dictionary, collect, key_chain=None)] *)
Definition walk {A B} (dictionary : gmap string (tree A))
    (collect : list string → A → B) (key_chain : option (list string))
    : gmap string (tree B) :=
  map_fold
    (λ key item result,
       let sub_key_chain := default [] key_chain ++ [key] in
       <[key := walk_item collect sub_key_chain item]> result)
    ∅ dictionary.

(** [functools.reduce(function, iterable, initializer)]; an exception raised
    by [function] ends the reduction. *)
Definition reduce {S K} (function : S → K → outcome S) (iterable : list K)
    (initializer : S) : outcome S :=
  fold_left (λ acc k, obind acc (λ d, function d k)) iterable (Ok initializer).

Section subscript.
Context {A : Type}.
(** What subscripting a leaf by a string does.  A leaf is whatever the
    nested mapping holds that is no dictionary: for a number [x[k]] raises
    [TypeError], for a numpy array it raises [IndexError]. *)
Variable leaf_getitem : A → string → outcome (tree A).

(** [d[k]]: subscripting a dictionary raises [KeyError] on a missing key;
    subscripting a leaf is the leaf's own affair. *)
Definition getitem (d : tree A) (k : string) : outcome (tree A) :=
  match d with
  | Group entries =>
      match entries !! k with
      | Some v => Ok v
      | None => Err (KeyError k)
      end
  | Leaf x => leaf_getitem x k
  end.

(** [walk_key_chain(dictionary, key_chain)] *)
Definition walk_key_chain (dictionary : tree A) (key_chain : list string)
    : outcome (tree A) :=
  reduce (λ d k, getitem d k) key_chain dictionary.
End subscript.

(** The object a key path leads to in a nested mapping, read off the
    nesting itself: the mapping for the empty path, else what the rest of
    the path leads to in the entry of the first key.  There is none when a
    key has no entry, or when the path goes on where a leaf is reached. *)
Fixpoint at_path {A} (d : tree A) (key_chain : list string) : option (tree A) :=
  match key_chain with
  | [] => Some d
  | k :: rest =>
      match d with
      | Group entries => entries !! k ≫= λ v, at_path v rest
      | Leaf _ => None
      end
  end.


(** Subscripting a number by a string, and an array by a string. *)
Definition number_getitem {A} (x : A) (k : string) : outcome (tree A) :=
  Err TypeError.
Definition array_getitem {A} (x : A) (k : string) : outcome (tree A) :=
  Err IndexError.

(** The entry a key path leads to, if every key is present. *)
Fixpoint entry_at {A} (d : gmap string (tree A)) (k : string)
    (rest : list string) : option (tree A) :=
  match d !! k with
  | None => None
  | Some item =>
      match rest with
      | [] => Some item
      | k' :: rest' =>
          match item with
          | Group entries => entry_at entries k' rest'
          | Leaf _ => None
          end
      end
  end.

(** What [load_weights] returns: one mapping, or a list of them. *)
Inductive loaded (A : Type) : Type :=
  | Single (w : gmap string (tree A))
  | Several (ws : list (gmap string (tree A))).
Arguments Single {A} w.
Arguments Several {A} ws.

Section load.
(** The leaves of a weight file, the arrays [np.array] makes of them, and
    the weight files on disk by file path. *)
Context {Dataset Array : Type}.
Variable np_array : Dataset → Array.
Variable h5 : gmap string (gmap string (tree Dataset)).

(** ["weights/%s.h5" % weights_name] *)
Definition weights_file (weights_name : string) : string :=
  "weights/" +:+ weights_name +:+ ".h5".

(** The loop of [load_weights], appending to [weights]. *)
Fixpoint load_each (weights_names : list string)
    (weights : list (gmap string (tree Array)))
    : outcome (list (gmap string (tree Array))) :=
  match weights_names with
  | [] => Ok weights
  | weights_name :: rest =>
      let filepath := "weights/" +:+ weights_name +:+ ".h5" in
      match h5 !! filepath with
      | None => Err (OSError filepath)
      | Some file =>
          let w := walk file (λ _ x, np_array x) None in
          load_each rest (weights ++ [w])
      end
  end.

(** [load_weights] of the names [weights_names] *)
Definition load_weights (weights_names : list string) : outcome (loaded Array) :=
  obind (load_each weights_names [])
    (λ weights,
       if decide (1 < length weights) then Ok (Several weights)
       else match weights with
            | w :: _ => Ok (Single w)
            | [] => Err IndexError
            end).
(** The mapping [load_weights] makes of the weight file of a name. *)
Definition weights_of (weights_name : string) : gmap string (tree Array) :=
  walk (default ∅ (h5 !! weights_file weights_name)) (λ _ x, np_array x) None.
End load.

End Weights.

(** * download_data.py *)
Module DownloadData.

(** ** Paths and the file system

    A path is the list of its components, and the file system is the tree
    of directories and regular files below the directory the script runs
    in; there are no links.  [os.path.join(a, b)] appends [b] as one
    component, which is what it does for a name [b] that is a single path
    component ([component] below): not empty, not [.] or [..], without a
    separator.  The properties that take names from outside (split names,
    the datasets directory, the members of an archive) assume such names. *)

(** The character [a] is in the text [s]. *)
Fixpoint has (a : Ascii.ascii) (s : string) : bool :=
  match s with
  | EmptyString => false
  | String b s' => Ascii.eqb b a || has a s'
  end.

(** The separator [/], and the characters [*], [?] and [[] that [glob]
    reads as wildcards. *)
Definition SLASH : Ascii.ascii := Ascii.ascii_of_nat 47.
Definition STAR : Ascii.ascii := Ascii.ascii_of_nat 42.
Definition QUESTION : Ascii.ascii := Ascii.ascii_of_nat 63.
Definition BRACKET : Ascii.ascii := Ascii.ascii_of_nat 91.

(** A single path component. *)
Definition component (c : string) : bool :=
  negb (String.eqb c "") && negb (String.eqb c ".") && negb (String.eqb c "..")
  && negb (has SLASH c).

(** [glob.has_magic(s)] *)
Definition has_magic (s : string) : bool :=
  has STAR s || has QUESTION s || has BRACKET s.

(** A single path component that [glob] reads as it stands. *)
Definition plain_name (c : string) : bool := component c && negb (has_magic c).

(** A path none of whose components holds a wildcard. *)
Definition literal_path (p : list string) : bool :=
  forallb (λ c, negb (has_magic c)) p.

(** A regular file holds bytes; a file written by [pickle.dump] is kept as
    the dictionary it holds, by its items. *)
Inductive content : Type :=
  | Bytes (s : string)
  | Pickle (items : list (string * string)).

Inductive node : Type :=
  | File (c : content)
  | Dir (entries : gmap string node).

(** [os.path.join(p, c)], for a single component [c]. *)
Definition join (p : list string) (c : string) : list string := p ++ [c].

(** [os.path.split(p)]: the parent directory and the last component. *)
Definition split (p : list string) : list string * string :=
  (removelast p, List.last p "").

(** ["%s%s" % (p, sfx)]: the text [sfx] appended to the path, that is to its
    last component. *)
Fixpoint add_suffix (p : list string) (sfx : string) : list string :=
  match p with
  | [] => [sfx]
  | [c] => [c +:+ sfx]
  | c :: p' => c :: add_suffix p' sfx
  end.

Definition startswith (s pre : string) : bool := String.prefix pre s.
Definition endswith (s sfx : string) : bool :=
  String.prefix (String.rev sfx) (String.rev s).

(** [p.endswith(sfx)] for a suffix without a separator. *)
Definition path_endswith (p : list string) (sfx : string) : bool :=
  match p with
  | [] => false
  | _ => endswith (List.last p "") sfx
  end.

Fixpoint lookup_path (p : list string) (n : node) : option node :=
  match p with
  | [] => Some n
  | c :: p' =>
      match n with
      | Dir entries => entries !! c ≫= lookup_path p'
      | File _ => None
      end
  end.

(** The entry at [p] becomes [x] ([None]: it is unlinked); nothing happens
    if the parent of [p] is not a directory. *)
Fixpoint set_path (p : list string) (x : option node) (n : node) : node :=
  match p with
  | [] => n
  | c :: p' =>
      match n with
      | File _ => n
      | Dir entries =>
          match p' with
          | [] => Dir (partial_alter (λ _, x) c entries)
          | _ => Dir (alter (set_path p' x) c entries)
          end
      end
  end.

Definition exists_ (p : list string) (root : node) : bool :=
  match lookup_path p root with Some _ => true | None => false end.
Definition isfile (p : list string) (root : node) : bool :=
  match lookup_path p root with Some (File _) => true | _ => false end.
Definition isdir (p : list string) (root : node) : bool :=
  match lookup_path p root with Some (Dir _) => true | _ => false end.

(** What [os.stat] can tell of a path. *)
Inductive status : Type :=
  | Absent
  | IsFile (c : content)
  | IsDir.

Definition stat (p : list string) (root : node) : status :=
  match lookup_path p root with
  | None => Absent
  | Some (File c) => IsFile c
  | Some (Dir _) => IsDir
  end.

(** What is at [q] in [root] is still there, unchanged, in [root']. *)
Definition preserved (q : list string) (root root' : node) : Prop :=
  stat q root ≠ Absent → stat q root' = stat q root.

(** ** The world of a run: the file system and what the run did *)

Inductive message : Type :=
  | MsgLocalPathExists (remote_url : string) (local_path : list string)
  | MsgRetrieving (local_path : list string)
  | MsgExistsAlready (local_path : list string)
  | MsgUntarring (filepath target_directory : list string)
  | MsgSkipping (dataset data_type : string)
  | MsgRetrievingSplit (dataset data_type : string)
  | MsgSkippingTruths (dataset data_type : string) (truths_filepath : list string)
  | MsgConvertingTruths (dataset data_type : string)
  | MsgSkippingImages (dataset data_type : string) (images_directory : list string)
  | MsgCollectingImages (dataset data_type : string)
  | MsgImageUrlsMustNotBeDistributed
  | MsgRunningWithArgs.

Inductive event : Type :=
  | Print (m : message)
  | UrlRetrieve (url : string) (filename : list string)
  | ExtractAll (archive target_directory : list string)
  | BuildModel (model_builder : string).

Record world : Type := World { fs : node; log : list event }.

(** A call: from a world to an outcome and the world it leaves, also when
    it raises. *)
Definition M (A : Type) : Type := world → outcome A * world.

#[export] Instance M_ret : MRet M := λ A a w, (Ok a, w).
#[export] Instance M_bind : MBind M := λ A B k m w,
  match m w with
  | (Ok a, w') => k a w'
  | (Err e, w') => (Err e, w')
  end.

Definition raise {A} (e : exn) : M A := λ w, (Err e, w).
Definition emit (ev : event) : M unit :=
  λ w, (Ok (), World (fs w) (log w ++ [ev])).
Definition print (m : message) : M unit := emit (Print m).
Definition get_fs : M node := λ w, (Ok (fs w), w).
Definition put_fs (root : node) : M unit := λ w, (Ok (), World root (log w)).
Definition assert (b : bool) (m : assert_msg) : M unit :=
  if b then mret () else raise (AssertionError m).

(** The call [m] leaves the paths of [Q] as they are. *)
Definition keeps {A} (Q : list string → Prop) (m : M A) : Prop :=
  ∀ w q, Q q → preserved q (fs w) (fs (m w).2).

(** [for x in xs: body(x)] *)
Fixpoint for_each {A} (xs : list A) (body : A → M unit) : M unit :=
  match xs with
  | [] => mret ()
  | x :: xs' => body x ;; for_each xs' body
  end.

(** ** The operating system calls the script makes *)

(** A regular file stands where the path needs a directory. *)
Fixpoint blocked (p : list string) (n : node) : bool :=
  match p with
  | [] => false
  | c :: p' =>
      match n with
      | File _ => true
      | Dir entries =>
          match entries !! c with
          | Some n' => blocked p' n'
          | None => false
          end
      end
  end.

(** The exception for a path that cannot be reached. *)
Definition missing (p : list string) (root : node) : exn :=
  if blocked p root then NotADirectoryError p else FileNotFoundError p.

Definition os_path_exists (p : list string) : M bool :=
  root ← get_fs; mret (exists_ p root).
Definition os_path_isfile (p : list string) : M bool :=
  root ← get_fs; mret (isfile p root).
Definition os_path_isdir (p : list string) : M bool :=
  root ← get_fs; mret (isdir p root).

(** [open(p, 'wb')] and the writing of [c]: the file is created or
    replaced. *)
Definition write_file (p : list string) (c : content) : M unit :=
  root ← get_fs;
  if isdir p root then raise (IsADirectoryError p)
  else if isdir (removelast p) root then put_fs (set_path p (Some (File c)) root)
  else raise (missing p root).

(** [open(p)] and the reading of the whole file. *)
Definition read_file (p : list string) : M content :=
  root ← get_fs;
  match lookup_path p root with
  | Some (File c) => mret c
  | Some (Dir _) => raise (IsADirectoryError p)
  | None => raise (missing p root)
  end.

Definition os_mkdir (p : list string) : M unit :=
  root ← get_fs;
  if exists_ p root then raise (FileExistsError p)
  else if isdir (removelast p) root then put_fs (set_path p (Some (Dir ∅)) root)
  else raise (missing p root).

(** [os.makedirs(base/todo, exist_ok=exist_ok)]: the missing ancestors are
    made from the topmost one down, then the directory itself. *)
Fixpoint makedirs_from (base todo : list string) (exist_ok : bool) : M unit :=
  match todo with
  | [] => if exist_ok then mret () else raise (FileExistsError base)
  | c :: todo' =>
      let head := join base c in
      root ← get_fs;
      match todo' with
      | [] =>
          if exists_ head root && exist_ok && isdir head root then mret ()
          else os_mkdir head
      | _ =>
          (if exists_ head root then mret () else os_mkdir head) ;;
          makedirs_from head todo' exist_ok
      end
  end.

Definition os_makedirs (name : list string) (exist_ok : bool) : M unit :=
  makedirs_from [] name exist_ok.

Definition os_remove (p : list string) : M unit :=
  root ← get_fs;
  match lookup_path p root with
  | Some (File _) => put_fs (set_path p None root)
  | Some (Dir _) => raise (IsADirectoryError p)
  | None => raise (missing p root)
  end.

Definition shutil_rmtree (p : list string) : M unit :=
  root ← get_fs;
  match lookup_path p root with
  | Some (Dir _) => put_fs (set_path p None root)
  | Some (File _) => raise (NotADirectoryError p)
  | None => raise (missing p root)
  end.

(** [shutil.move(src, dst)]: into [dst] when it is a directory, else a
    rename onto [dst], which replaces a regular file there. *)
Definition shutil_move (src dst : list string) : M unit :=
  root ← get_fs;
  let real_dst := if isdir dst root then join dst (split src).2 else dst in
  if isdir dst root && exists_ real_dst root then raise (ShutilError real_dst)
  else
    match lookup_path src root with
    | None => raise (missing src root)
    | Some n =>
        if bool_decide (src = real_dst) then mret ()
        else if bool_decide (src `prefix_of` real_dst) then
          raise (match n with Dir _ => ShutilError real_dst
                            | File _ => NotADirectoryError real_dst end)
        else if negb (isdir (removelast real_dst) root) then
          raise (missing real_dst root)
        else if isdir src root && exists_ real_dst root then
          raise (FileExistsError real_dst)
        else put_fs (set_path real_dst (Some n) (set_path src None root))
    end.

(** [os.listdir(directory)] *)
Definition os_listdir (directory : list string) : M (list string) :=
  root ← get_fs;
  match lookup_path directory root with
  | Some (Dir entries) => mret (map fst (map_to_list entries))
  | Some (File _) => raise (NotADirectoryError directory)
  | None => raise (missing directory root)
  end.

(** ** What lies outside the script: the network, the archive and XML
    formats, the Keras model builders *)

(** What a host answers to an HTTP request: nothing that can be read
    ([urlopen] raises: the host cannot be reached, or it answers with an
    error status); or the body of the resource, with the [Content-Length]
    header if the host sends one and the number of bytes that arrive before
    the connection is closed, which is less than the length of the body
    when the transfer is cut short; or a connection that fails while it is
    read, after some bytes. *)
Inductive response : Type :=
  | Unreachable
  | Answer (body : string) (content_length : option nat) (arrived : nat)
  | Reset (received : string).

(** The bytes of an answer that are read: those that arrive, and no more
    of them than the host announced. *)
Definition received (body : string) (content_length : option nat)
    (arrived : nat) : string :=
  String.substring 0
    (match content_length with
     | Some size => Nat.min arrived size
     | None => arrived
     end)
    body.

(** [size >= 0 and read < size], where [size] is the [Content-Length] the
    host sent, or [-1], and [read] the number of bytes that were read. *)
Definition too_short (content_length : option nat) (read : nat) : bool :=
  match content_length with
  | Some size => (read <? size)%nat
  | None => false
  end.

(** A member of a tar archive: a regular file with its data, a directory,
    or anything else (a symbolic or hard link, a device, a fifo). *)
Inductive member : Type :=
  | RegularFile (name : list string) (data : content)
  | Directory (name : list string)
  | Special (name : list string).

(** A regular file or a directory under a relative name of single
    components: extracting it writes below the target directory. *)
Definition plain_member (m : member) : bool :=
  match m with
  | RegularFile name _ | Directory name =>
      negb (bool_decide (name = [])) && forallb component name
  | Special _ => false
  end.

(** What [pickle.load] returns: a dictionary of strings, by its items, or
    another value, of which the script only tests the truth. *)
Inductive unpickled : Type :=
  | PyDict (items : list (string * string))
  | PyOther (truth : bool).

Record env : Type := Env {
  (** the answer to a request for a URL *)
  http : string → response;
  (** the members of a tar archive, by its bytes, and whether the archive
      ends as it should (reading a truncated one stops with an error after
      the members before the break); nothing for bytes that [tarfile.open]
      refuses; the flag is [true] for the gzip reading mode ["r:gz"] *)
  untar : bool → string → option (list member * bool);
  (** what extracting a member that is no regular file and no directory
      does, by the target directory and the member's name *)
  extract_special : list string → list string → M unit;
  (** the components of the absolute path of the directory the script runs
      in *)
  cwd : list string;
  (** the matches of [glob.glob] for a pattern with wildcards in its
      directories or its extension, by the file system, the components
      before the directory, the directory and the extension *)
  glob_magic : node → list string → list string → string → list (list string);
  (** [filepath[len(directory) + 1:]] for a path that is not an entry of
      the directory *)
  path_slice : list string → list string → string;
  (** the text of a file opened in text mode, by its bytes, in the
      encoding of the locale; nothing for bytes the encoding cannot
      decode *)
  decode : string → option string;
  (** what [pickle.load] does with bytes that [pickle.dump] of a
      dictionary of strings did not write *)
  unpickle : string → M unpickled;
  (** the [filename] and [./object/name] texts of an XML document *)
  xml_fields : string → option (option string * option string);
  (** [model_builder(weights='imagenet')], which returns the model's name *)
  build_model : string → M string
}.

(** Every archive holds regular files and directories only, under relative
    names of single components. *)
Definition plain_archives (E : env) : Prop :=
  ∀ gz bytes members complete,
    untar E gz bytes = Some (members, complete) →
    forallb plain_member members = true.

Section script.
Variable E : env.

(** [urllib.request.urlretrieve(url, filename)]: the file is opened once
    the host has answered, it gets the bytes that arrive, and the transfer
    counts as too short only against a [Content-Length] the host sent. *)
Definition urlretrieve (url : string) (filename : list string) : M unit :=
  emit (UrlRetrieve url filename) ;;
  match http E url with
  | Unreachable => raise (URLError url)
  | Answer body content_length arrived =>
      write_file filename (Bytes (received body content_length arrived)) ;;
      if too_short content_length (String.length (received body content_length arrived))
      then raise (ContentTooShortError url)
      else mret ()
  | Reset received =>
      write_file filename (Bytes received) ;; raise (OSError url)
  end.


(** [__download_from_url(url, local_path)] *)
Definition download_from_url (url : string) (local_path : list string) : M unit :=
  let filepart_path := add_suffix local_path ".filepart" in
  urlretrieve url filepart_path ;;
  shutil_move filepart_path local_path.

(** [__download_if_needed(local_path, retrieve)] *)
Definition download_if_needed (local_path : list string)
    (retrieve : list string → M unit) : M bool :=
  is_file ← os_path_isfile local_path;
  let download_needed := negb is_file in
  (if download_needed then
     print (MsgRetrieving local_path) ;;
     retrieve local_path
   else print (MsgExistsAlready local_path)) ;;
  mret download_needed.

(** The directories above a member are made if they are not there. *)
Definition make_upperdirs (targetpath : list string) : M unit :=
  let upperdirs := removelast targetpath in
  present ← os_path_exists upperdirs;
  if present : bool then mret () else os_makedirs upperdirs false.

(** One round of [tar.extractall(target_directory)]: a regular file is
    written, over a file that is there; a directory is made unless
    something is there already; any other member is the environment's. *)
Definition extract_member (target_directory : list string) (m : member)
    : M unit :=
  match m with
  | RegularFile name data =>
      let targetpath := target_directory ++ name in
      make_upperdirs targetpath ;;
      write_file targetpath data
  | Directory name =>
      let targetpath := target_directory ++ name in
      make_upperdirs targetpath ;;
      there ← os_path_exists targetpath;
      if there : bool then mret () else os_mkdir targetpath
  | Special name => extract_special E target_directory name
  end.

(** [__extract_tar(filepath, target_directory)] *)
Definition extract_tar (filepath target_directory : list string) : M unit :=
  print (MsgUntarring filepath target_directory) ;;
  archive ← read_file filepath;
  match archive with
  | Pickle _ => raise (ReadError filepath)
  | Bytes bytes =>
      match untar E (path_endswith filepath ".tar.gz") bytes with
      | None => raise (ReadError filepath)
      | Some (members, complete) =>
          emit (ExtractAll filepath target_directory) ;;
          for_each members (extract_member target_directory) ;;
          (if complete : bool then mret () else raise (ReadError filepath)) ;;
          os_remove filepath
      end
  end.

(** [__retrieve_tarred_content(remote_url, local_path)] *)
Definition retrieve_tarred_content (remote_url : string)
    (local_path : list string) : M unit :=
  assert (endswith remote_url ".tar.gz" || endswith remote_url ".tar") BareAssert ;;
  present ← os_path_exists local_path;
  if present : bool then print (MsgLocalPathExists remote_url local_path)
  else
    let tar_path :=
      add_suffix local_path
        ("." +:+ (if endswith remote_url ".tar.gz" then "tar.gz" else "tar")) in
    download_if_needed tar_path (download_from_url remote_url) ;;
    extract_tar tar_path local_path.

(** [__find_keras_weights(weights_prefix)] *)
Definition keras_models : list string := ["~"; ".keras"; "models"].

Definition find_keras_weights (weights_prefix : string) : M (list string) :=
  let weights_directory := keras_models in
  names ← os_listdir weights_directory;
  let weights_files := List.filter (λ f, startswith f weights_prefix) names in
  match weights_files with
  | [f] => mret (join weights_directory f)
  | _ => raise (AssertionError BareAssert)
  end.

(** [__load_keras_model(model_builder, local_path)] *)
Definition load_keras_model (model_builder : string) (local_path : list string)
    : M unit :=
  emit (BuildModel model_builder) ;;
  name ← build_model E model_builder;
  weights_path ← find_keras_weights name;
  shutil_move weights_path local_path.

(** ** Text *)

Definition LF : Ascii.ascii := Ascii.ascii_of_nat 10.
Definition CR : Ascii.ascii := Ascii.ascii_of_nat 13.
Definition SP : Ascii.ascii := Ascii.ascii_of_nat 32.

(** The newline translation of a file opened in text mode: ["\r\n"] and
    ["\r"] are read as ["\n"]. *)
Fixpoint universal_newlines (s : string) : string :=
  match s with
  | EmptyString => EmptyString
  | String a s' =>
      if Ascii.eqb a CR then
        match s' with
        | String b s'' =>
            if Ascii.eqb b LF then universal_newlines s'
            else String LF (universal_newlines s')
        | EmptyString => String LF EmptyString
        end
      else String a (universal_newlines s')
  end.

(** [str.splitlines(keepends=True)] on ["\n"]: the lines of a text, each
    with its line ending. *)
Fixpoint keep_lines (s : string) : list string :=
  match s with
  | EmptyString => []
  | String a s' =>
      if Ascii.eqb a LF then String a EmptyString :: keep_lines s'
      else match keep_lines s' with
           | [] => [String a EmptyString]
           | l :: ls => String a l :: ls
           end
  end.

(** [file.readlines()] of a file opened in text mode: the bytes are
    decoded, the line endings translated, the text cut into lines. *)
Definition readlines (c : content) : M (list string) :=
  match c with
  | Bytes s =>
      match decode E s with
      | Some text => mret (keep_lines (universal_newlines text))
      | None => raise UnicodeDecodeError
      end
  | Pickle _ => raise ValueError
  end.

(** [s.split(sep)] for a separator of one character. *)
Fixpoint str_split (sep : Ascii.ascii) (s : string) : list string :=
  match s with
  | EmptyString => [EmptyString]
  | String a s' =>
      if Ascii.eqb a sep then EmptyString :: str_split sep s'
      else match str_split sep s' with
           | [] => [String a EmptyString]
           | l :: ls => String a l :: ls
           end
  end.

(** [pickle.load(open(p, 'rb'))]: a file that [pickle.dump] wrote gives
    its dictionary back, an empty file raises [EOFError], other bytes are
    the environment's. *)
Definition pickle_load (p : list string) : M unpickled :=
  c ← read_file p;
  match c with
  | Pickle items => mret (PyDict items)
  | Bytes EmptyString => raise EOFError
  | Bytes bytes => unpickle E bytes
  end.

(** [pickle.dump(d, open(p, 'wb'))] *)
Definition pickle_dump (d : gmap string string) (p : list string) : M unit :=
  write_file p (Pickle (map_to_list d)).

(** ** Image collectors and annotation converters *)

(** The pattern [<directories>/*.<filetype>] has no wildcard but its
    star, and its last component is [*.<filetype>]. *)
Definition literal_pattern (directories : list string) (filetype : string)
    : bool :=
  literal_path directories
  && negb (has_magic filetype) && negb (has SLASH filetype).

(** [glob.glob(os.path.join(directory, "*." + filetype))].  [above] holds
    the components of the pattern before [directory]: those of the
    directory the script runs in when the pattern is absolute, none when it
    is relative.  For a pattern without further wildcards the matches are
    the entries of the directory whose name ends with the extension ([*]
    does not match a leading dot), and there are none when there is no such
    directory; other patterns are the environment's. *)
Definition glob (above directory : list string) (filetype : string)
    : M (list (list string)) :=
  root ← get_fs;
  if literal_pattern (above ++ directory) filetype then
    mret (match lookup_path directory root with
          | Some (Dir entries) =>
              map (join directory)
                (List.filter
                   (λ name, endswith name ("." +:+ filetype)
                            && negb (startswith name "."))
                   (map fst (map_to_list entries)))
          | _ => []
          end)
  else mret (glob_magic E root above directory filetype).

(** [filepath[len(images_directory) + 1:]], where [images_directory] is an
    absolute path: the name of the entry when [filepath] is an entry of
    the directory and the directory is not the root of the file system. *)
Definition strip_directory (images_directory filepath : list string) : string :=
  if bool_decide (filepath = join images_directory (split filepath).2)
     && negb (bool_decide (cwd E ++ images_directory = []))
  then (split filepath).2
  else path_slice E images_directory filepath.

(** [__collect_images(images_directory, filetype)]; [os.path.realpath]
    makes the path absolute, there being no symbolic links. *)
Definition collect_images (images_directory : list string) (filetype : string)
    : M (list string * list string) :=
  image_files ← glob (cwd E) images_directory filetype;
  mret (images_directory, map (strip_directory images_directory) image_files).

(** [__collect_imagenet2012_images(dataset_directory)] *)
Definition collect_imagenet2012_images (dataset_directory : list string)
    : M (list string * list string) :=
  let data_type := (split dataset_directory).2 in
  (if startswith data_type "train" then
     tarred_images ← glob [] dataset_directory "tar";
     assert (negb (bool_decide (tarred_images = []))) NoTarredImages ;;
     for_each tarred_images (λ tar, extract_tar tar dataset_directory)
   else mret ()) ;;
  collect_images dataset_directory "JPEG".

(** One round of the loop of [__convert_voc_truths]. *)
Definition convert_voc_file (file : list string)
    (truths : gmap string string) : M (gmap string string) :=
  c ← read_file file;
  match c with
  | Pickle _ => raise (ParseError file)
  | Bytes s =>
      match xml_fields E s with
      | None => raise (ParseError file)
      | Some (Some filename, Some object_name) =>
          mret (<[filename := object_name]> truths)
      | Some _ => raise AttributeError
      end
  end.

(** A loop that updates a dictionary. *)
Fixpoint fold_dict {A} (xs : list A)
    (body : A → gmap string string → M (gmap string string))
    (truths : gmap string string) : M (gmap string string) :=
  match xs with
  | [] => mret truths
  | x :: xs' => truths' ← body x truths; fold_dict xs' body truths'
  end.

(** [__convert_voc_truths(dataset_directory)] *)
Definition convert_voc_truths (dataset_directory : list string)
    : M (gmap string string) :=
  is_dir ← os_path_isdir dataset_directory;
  assert is_dir BareAssert ;;
  xml_files ← glob [] dataset_directory "xml";
  fold_dict xml_files convert_voc_file ∅.

(** One round of the loop of [__convert_imagenet2012_truths]:
    [filename, truth = line.split(" ")] and [truths[filename] = truth]. *)
Definition convert_imagenet2012_line (line : string)
    (truths : gmap string string) : M (gmap string string) :=
  match str_split SP line with
  | [filename; truth] => mret (<[filename := truth]> truths)
  | _ => raise ValueError
  end.

(** The [with open(...) as annotations_file] block of
    [__convert_imagenet2012_truths], which builds [truths]. *)
Definition read_annotations (annotations_file : list string)
    : M (gmap string string) :=
  c ← read_file annotations_file;
  lines ← readlines c;
  fold_dict lines convert_imagenet2012_line ∅.

(** [__convert_imagenet2012_truths(dataset_directory, data_type)] *)
Definition convert_imagenet2012_truths (dataset_directory : list string)
    (data_type : string) : M (gmap string string) :=
  let parent_directory := (split dataset_directory).1 in
  let dataset := (split parent_directory).2 in
  assert (String.eqb dataset "ILSVRC2012") BareAssert ;;
  assert (bool_decide (data_type ∈ ["train"; "val"; "test"])) BareAssert ;;
  let annotations_path := join parent_directory "annotations" in
  retrieve_tarred_content
    "http://dl.caffe.berkeleyvision.org/caffe_ilsvrc12.tar.gz" annotations_path ;;
  read_annotations (join annotations_path (data_type +:+ ".txt")).

(** ** The dataset orchestrator *)

Section download_dataset.
Variable dataset : string.
Variable convert_truths : list string → string → M (gmap string string).
Variable collect_image_files : list string → M (list string * list string).
Variable datasets_directory : list string.

(** The [# truths] part of the loop body; it returns the local variable
    [truths], which it binds only when it converts. *)
Definition truths_stage (data_type : string)
    (compressed_directory datatype_directory truths_filepath : list string)
    (truths : option (gmap string string)) : M (option (gmap string string)) :=
  have_truths ← os_path_isfile truths_filepath;
  if have_truths : bool then
    print (MsgSkippingTruths dataset data_type truths_filepath) ;;
    mret truths
  else
    print (MsgConvertingTruths dataset data_type) ;;
    truths' ← convert_truths compressed_directory data_type;
    assert (negb (bool_decide (truths' = ∅))) NoTruthsConverted ;;
    os_makedirs datatype_directory true ;;
    pickle_dump truths' truths_filepath ;;
    mret (Some truths').

(** The [# images] part of the loop body. *)
Definition images_stage (data_type : string)
    (compressed_directory images_directory : list string)
    (truths : option (gmap string string)) : M unit :=
  have_images ← os_path_isdir images_directory;
  if have_images : bool then
    print (MsgSkippingImages dataset data_type images_directory)
  else
    print (MsgCollectingImages dataset data_type) ;;
    collected ← collect_image_files compressed_directory;
    let images_source_directory := collected.1 in
    let image_files := collected.2 in
    assert (negb (bool_decide (image_files = []))) NoImagesFound ;;
    match truths with
    | None => raise (UnboundLocalError "truths")
    | Some truths =>
        assert (bool_decide (length image_files = size truths))
          (CountDiffers (length image_files) (size truths)) ;;
        let images_truths_diffs : gset string :=
          list_to_set image_files ∖ dom truths in
        let truths_images_diffs : gset string :=
          dom truths ∖ list_to_set image_files in
        assert (bool_decide (images_truths_diffs = ∅)
                && bool_decide (truths_images_diffs = ∅))
          (KeysDiffer images_truths_diffs truths_images_diffs) ;;
        os_makedirs images_directory false ;;
        for_each image_files
          (λ image_file,
             shutil_move (join images_source_directory image_file)
                         (join images_directory image_file)) ;;
        shutil_rmtree compressed_directory
    end.

(** One round of the loop of [__download_dataset]; the local variable
    [truths] goes in and comes out, as it lives on from one round to the
    next. *)
Definition download_split (truths : option (gmap string string))
    (data_type data_url : string) : M (option (gmap string string)) :=
  let dataset_directory := join datasets_directory dataset in
  let datatype_directory := join dataset_directory data_type in
  let truths_filepath := join datatype_directory "ground_truths.p" in
  let images_directory := join datatype_directory "images" in
  have_truths ← os_path_isfile truths_filepath;
  have_images ← os_path_isdir images_directory;
  if (have_truths : bool) && (have_images : bool) then
    print (MsgSkipping dataset data_type) ;;
    mret truths
  else
    print (MsgRetrievingSplit dataset data_type) ;;
    let compressed_directory :=
      join (join datasets_directory dataset) (data_type +:+ "_compressed") in
    retrieve_tarred_content data_url compressed_directory ;;
    truths' ← truths_stage data_type compressed_directory datatype_directory
                truths_filepath truths;
    images_stage data_type compressed_directory images_directory truths' ;;
    mret truths'.

Fixpoint download_splits (data_urls : list (string * string))
    (truths : option (gmap string string)) : M unit :=
  match data_urls with
  | [] => mret ()
  | (data_type, data_url) :: rest =>
      truths' ← download_split truths data_type data_url;
      download_splits rest truths'
  end.

(** [__download_dataset(dataset, data_urls, convert_truths,
    collect_image_files, datasets_directory)]; [data_urls] is the
    dictionary by its items, in the order of the loop. *)
Definition download_dataset (data_urls : list (string * string)) : M unit :=
  let dataset_directory := join datasets_directory dataset in
  os_makedirs dataset_directory true ;;
  download_splits data_urls None.

End download_dataset.

(** ** What the orchestrator leaves for a split *)

Definition truths_path (dataset_directory : list string) (data_type : string)
    : list string :=
  join (join dataset_directory data_type) "ground_truths.p".

Definition images_path (dataset_directory : list string) (data_type : string)
    : list string :=
  join (join dataset_directory data_type) "images".

(** The split is done: its first check of the loop body holds. *)
Definition ready (dataset_directory : list string) (data_type : string)
    (root : node) : Prop :=
  isfile (truths_path dataset_directory data_type) root = true
  ∧ isdir (images_path dataset_directory data_type) root = true.

(** The ground-truths files and images directories of the splits. *)
Definition outputs (dataset_directory : list string) (splits : list string)
    (q : list string) : Prop :=
  ∃ t, t ∈ splits
       ∧ (q = truths_path dataset_directory t
          ∨ q = images_path dataset_directory t).

(** No split is named as the staging directory of a split, or as a file
    beside it: no name begins with a name followed by [_compressed]. *)
Definition staging_apart (splits : list string) : bool :=
  forallb (λ s, forallb (λ t, negb (String.prefix (s +:+ "_compressed") t)) splits)
    splits.

(** ** The script *)

Definition voc_url : string :=
  "http://host.robots.ox.ac.uk/pascal/VOC/voc2012/VOCtrainval_11-May-2012.tar".

(** The [# weights] part of the script. *)
Definition main_weights (weights_directory : list string) : M unit :=
  download_if_needed (join weights_directory "alexnet.h5")
    (download_from_url "http://files.heuritech.com/weights/alexnet_weights.h5") ;;
  for_each ["vgg16"; "vgg19"; "resnet50"; "inceptionv3"]
    (λ model_builder,
       download_if_needed (join weights_directory (model_builder +:+ ".h5"))
         (load_keras_model model_builder) ;;
       mret ()).

(** The second call of the [# datasets] part. *)
Definition download_voc2012 (datasets_directory : list string) : M unit :=
  download_dataset "VOC2012"
    (λ dataset_directory _,
       convert_voc_truths
         (join (join (join dataset_directory "VOCdevkit") "VOC2012") "Annotations"))
    (λ dataset_directory,
       collect_images
         (join (join (join dataset_directory "VOCdevkit") "VOC2012") "JPEGImages")
         "jpg")
    datasets_directory
    [("train", voc_url); ("val", voc_url)].

(** The [# datasets] part of the script. *)
Definition main_datasets (datasets_directory : list string) : M unit :=
  imagenet_urls ← pickle_load (join datasets_directory "ILSVRC2012_image_urls.p");
  match imagenet_urls with
  | PyDict items =>
      if bool_decide (items = []) then print MsgImageUrlsMustNotBeDistributed
      else
        download_dataset "ILSVRC2012" convert_imagenet2012_truths
          collect_imagenet2012_images datasets_directory items
  | PyOther false => print MsgImageUrlsMustNotBeDistributed
  | PyOther true =>
      (* [data_urls.items()], after the dataset directory was made *)
      os_makedirs (join datasets_directory "ILSVRC2012") true ;;
      raise AttributeError
  end ;;
  download_voc2012 datasets_directory.

(** The file of the image URLs, if there is one, was written by
    [pickle.dump] of a dictionary whose keys are plain names. *)
Definition urls_dumped (datasets_directory : list string) (root : node) : Prop :=
  match lookup_path (join datasets_directory "ILSVRC2012_image_urls.p") root with
  | Some (File (Bytes _)) => False
  | Some (File (Pickle items)) => forallb plain_name (map fst items) = true
  | _ => True
  end.

(** The script, from its parsed arguments. *)
Definition main (datasets_directory weights_directory : list string) : M unit :=
  print MsgRunningWithArgs ;;
  main_weights weights_directory ;;
  main_datasets datasets_directory.

End script.
End DownloadData.

(** * Concrete weight files and worlds, for the examples *)

Module Examples.
Import Weights DownloadData.

(** Two weight files; the first has a layer group with two arrays. *)
Definition h5_two : gmap string (gmap string (tree nat)) :=
  {[ "weights/alexnet.h5" :=
       {[ "conv_1" := Group {[ "W" := Leaf 1; "b" := Leaf 2 ]};
          "dense_1" := Group {[ "W" := Leaf 3 ]} ]};
     "weights/vgg16.h5" := {[ "block1" := Group {[ "W" := Leaf 4 ]} ]} ]}.

(** How often the character [a] occurs in [s]. *)
Fixpoint count (a : Ascii.ascii) (s : string) : nat :=
  match s with
  | EmptyString => 0
  | String b s' => (if Ascii.eqb b a then 1 else 0) + count a s'
  end.



(** The line ending, and the archives and documents of the examples. *)
Definition nl : string := String LF EmptyString.

Definition demo_untar (gz : bool) (bytes : string)
    : option (list member * bool) :=
  if String.eqb bytes "images" then
    Some ([RegularFile ["img001.JPEG"] (Bytes "jpeg-1");
           RegularFile ["img002.JPEG"] (Bytes "jpeg-2")], true)
  else if String.eqb bytes "annotations" then
    Some ([RegularFile ["val.txt"]
             (Bytes ("img001.JPEG 5" +:+ nl +:+ "img002.JPEG 7" +:+ nl))], true)
  else if String.eqb bytes "voc" then
    Some ([Directory ["VOCdevkit"];
           RegularFile ["VOCdevkit"; "VOC2012"; "Annotations"; "2007_000027.xml"]
             (Bytes "<annotation>person</annotation>");
           RegularFile ["VOCdevkit"; "VOC2012"; "JPEGImages"; "2007_000027.jpg"]
             (Bytes "jpeg-27")], true)
  else None.

Definition demo_xml (document : string) : option (option string * option string) :=
  if String.eqb document "<annotation>person</annotation>"
  then Some (Some "2007_000027.jpg", Some "person")
  else None.

(** Every resource is served whole, with its length announced. *)
Definition whole (body : string) : response :=
  Answer body (Some (String.length body)) (String.length body).

Definition demo_http (url : string) : response :=
  if String.eqb url "http://dl.caffe.berkeleyvision.org/caffe_ilsvrc12.tar.gz"
  then whole "annotations"
  else if String.eqb url voc_url then whole "voc"
  else whole "images".

(** Texts of seven-bit characters decode to themselves. *)
Fixpoint seven_bit (s : string) : bool :=
  match s with
  | EmptyString => true
  | String a s' => (Ascii.nat_of_ascii a <? 128)%nat && seven_bit s'
  end.

Definition demo_decode (bytes : string) : option string :=
  if seven_bit bytes then Some bytes else None.

(** An environment with the example archives and documents, run in
    [/home/user], whose host gives the answers [answer]. *)
Definition demo_env (answer : string → response) : env :=
  {| http := answer;
     untar := demo_untar;
     extract_special := λ _ _, mret ();
     cwd := ["home"; "user"];
     glob_magic := λ _ _ _ _, [];
     path_slice := λ _ _, "";
     decode := demo_decode;
     unpickle := λ _, raise UnpicklingError;
     xml_fields := demo_xml;
     build_model := λ model_builder, mret model_builder |}.

(** A host that answers every request in full; one whose transfers break
    off after three bytes, the length having been announced; one that
    sends three bytes of the resource, announces no length and closes. *)
Definition host_up : env := demo_env demo_http.

Definition host_breaks : env :=
  demo_env (λ _, Answer "images" (Some 6) 3).


(** A host that cannot be reached. *)
Definition host_down : env :=
  {| http := λ _, Unreachable;
     untar := λ _ _, None;
     extract_special := λ _ _, mret ();
     cwd := ["home"; "user"];
     glob_magic := λ _ _ _ _, [];
     path_slice := λ _ _, "";
     decode := demo_decode;
     unpickle := λ _, raise UnpicklingError;
     xml_fields := λ _, None;
     build_model := λ _, raise (URLError "keras") |}.

(** Nothing on disk yet. *)
Definition world_fresh : world := World (Dir ∅) [].

(** An empty weights directory. *)
Definition world_weights : world := World (Dir {[ "weights" := Dir ∅ ]}) [].

(** A datasets directory without the file of the ILSVRC2012 image URLs, and
    one where that file holds an empty dictionary. *)
Definition world_no_urls : world := World (Dir {[ "datasets" := Dir ∅ ]}) [].


(** The annotations of ILSVRC2012 already retrieved, with one line in
    [val.txt]. *)
Definition world_annotations : world :=
  World (Dir {[ "datasets" :=
    Dir {[ "ILSVRC2012" :=
      Dir {[ "annotations" :=
        Dir {[ "val.txt" := File (Bytes ("img001.JPEG 5" +:+ nl)) ]} ]} ]} ]}) [].

(** A split whose truths were converted by an earlier run that stopped
    before its images were collected: the ground-truths file is there, the
    images directory is not, the extracted archive still is. *)
Definition world_resume : world :=
  World (Dir {[ "datasets" :=
    Dir {[ "ILSVRC2012" :=
      Dir {[ "val" :=
               Dir {[ "ground_truths.p" :=
                        File (Pickle [("img001.JPEG", "5" +:+ nl);
                                      ("img002.JPEG", "7" +:+ nl)]) ]};
             "val_compressed" :=
               Dir {[ "img001.JPEG" := File (Bytes "jpeg-1");
                      "img002.JPEG" := File (Bytes "jpeg-2") ]} ]} ]} ]}) [].


(** The annotations archive of ILSVRC2012, downloaded and not yet
    extracted. *)
Definition world_archive : world :=
  World (Dir {[ "datasets" :=
    Dir {[ "ILSVRC2012" :=
      Dir {[ "annotations.tar.gz" := File (Bytes "annotations") ]} ]} ]}) [].

(** The image URLs of one split provided, and a weight file on disk. *)
Definition world_with_urls : world :=
  World (Dir {[ "datasets" :=
                  Dir {[ "ILSVRC2012_image_urls.p" :=
                           File (Pickle [("val", "http://image-net.example/val.tar")]) ]};
                "weights" := Dir {[ "alexnet.h5" := File (Bytes "hdf5") ]} ]}) [].




End Examples.

(** * Properties of the weight-tree loader *)

Section weights_facts.
Import Weights.
Context {A B : Type}.
Implicit Types (d : gmap string (tree A)) (collect : list string → A → B).

Lemma map_fold_insert_lookup {V W} (f : string → V → W) (m : gmap string V) k :
  map_fold (λ key item (result : gmap string W), <[key := f key item]> result)
    ∅ m !! k
  = f k <$> m !! k.
Proof.
  revert k.
  apply (map_fold_weak_ind
    (λ (r : gmap string W) (m : gmap string V), ∀ k, r !! k = f k <$> m !! k)).
  - intros k. by rewrite !lookup_empty.
  - intros i x m' r Hi IH k. rewrite !lookup_insert.
    case_decide; subst; [done | apply IH].
Qed.

Lemma walk_lookup d collect key_chain k :
  walk d collect key_chain !! k
  = walk_item collect (default [] key_chain ++ [k]) <$> d !! k.
Proof.
  unfold walk.
  apply (map_fold_insert_lookup
           (λ key item, walk_item collect (default [] key_chain ++ [key]) item)).
Qed.


(** C8. [walk] returns a mapping with the keys of its argument at every
    level: along every key path, an entry is there exactly when the
    argument has one; a leaf of the argument has become the transform
    applied to it (and to its key chain), a group has become the walk of
    the group. *)
Theorem walk_isomorphic d collect key_chain k rest :
  entry_at (walk d collect key_chain) k rest =
  match entry_at d k rest with
  | None => None
  | Some (Leaf x) => Some (Leaf (collect (default [] key_chain ++ k :: rest) x))
  | Some (Group entries) =>
      Some (Group (walk entries collect (Some (default [] key_chain ++ k :: rest))))
  end.
Proof.
  revert d key_chain k. induction rest as [|k' rest IH]; intros d key_chain k.
  - simpl. rewrite walk_lookup. destruct (d !! k) as [[x|entries]|]; done.
  - simpl. rewrite walk_lookup.
    destruct (d !! k) as [[x|entries]|]; simpl; [done| |done].
    etrans; [exact (IH entries (Some (default [] key_chain ++ [k])) k')|].
    simpl. by rewrite <- app_assoc.
Qed.

Lemma reduce_raised {S K} (f : S → K → outcome S) (l : list K) e :
  fold_left (λ acc k, obind acc (λ s, f s k)) l (Err e) = Err e.
Proof. induction l as [|k l IH]; [done | exact IH]. Qed.

Lemma walk_key_chain_cons leaf_getitem (t : tree A) k key_chain :
  walk_key_chain leaf_getitem t (k :: key_chain)
  = obind (getitem leaf_getitem t k)
      (λ v, walk_key_chain leaf_getitem v key_chain).
Proof.
  unfold walk_key_chain, reduce. simpl.
  destruct (getitem leaf_getitem t k) as [v|e]; simpl;
    [done | apply reduce_raised].
Qed.

Lemma walk_key_chain_app leaf_getitem (t : tree A) before after :
  walk_key_chain leaf_getitem t (before ++ after)
  = obind (walk_key_chain leaf_getitem t before)
      (λ v, walk_key_chain leaf_getitem v after).
Proof.
  revert t. induction before as [|k ks IH]; intros t; [done|].
  rewrite <- app_comm_cons, !walk_key_chain_cons.
  destruct (getitem leaf_getitem t k) as [v|e]; simpl; [apply IH | done].
Qed.

Lemma at_path_app (t : tree A) before after :
  at_path t (before ++ after) = at_path t before ≫= λ v, at_path v after.
Proof.
  revert t. induction before as [|k ks IH]; intros t; [done|].
  simpl. destruct t as [x|entries]; [done|].
  destruct (entries !! k) as [v|]; simpl; [apply IH | done].
Qed.

(** Along keys that are all present, subscripting key after key reaches
    the object the path leads to. *)
Lemma walk_key_chain_at_path leaf_getitem (t : tree A) key_chain v :
  at_path t key_chain = Some v →
  walk_key_chain leaf_getitem t key_chain = Ok v.
Proof.
  revert t. induction key_chain as [|k ks IH]; intros t.
  - by intros [= ->].
  - simpl. destruct t as [x|entries]; [done|].
    rewrite walk_key_chain_cons. simpl.
    destruct (entries !! k) as [v'|]; simpl; [apply IH | done].
Qed.

Section leaves_raise.
Variable leaf_getitem : A → string → outcome (tree A).
(** No leaf can be subscripted by a string, and none raises a [KeyError]
    of its own. *)
Hypothesis Hleaf :
  ∀ x k, ∃ e, leaf_getitem x k = Err e ∧ ∀ k', e ≠ KeyError k'.

Lemma walk_key_chain_Ok (t : tree A) key_chain v :
  walk_key_chain leaf_getitem t key_chain = Ok v → at_path t key_chain = Some v.
Proof.
  revert t. induction key_chain as [|k ks IH]; intros t.
  - by intros [= ->].
  - rewrite walk_key_chain_cons. destruct t as [x|entries]; simpl.
    + destruct (Hleaf x k) as (e & -> & _). done.
    + destruct (entries !! k) as [v'|]; simpl; [apply IH | done].
Qed.

Lemma walk_key_chain_KeyError (t : tree A) key_chain k :
  walk_key_chain leaf_getitem t key_chain = Err (KeyError k) →
  ∃ before after entries,
    key_chain = before ++ k :: after
    ∧ at_path t before = Some (Group entries)
    ∧ entries !! k = None.
Proof.
  revert t. induction key_chain as [|k0 ks IH]; intros t; [done|].
  rewrite walk_key_chain_cons. destruct t as [x|entries]; simpl.
  - destruct (Hleaf x k0) as (e & -> & He). simpl. intros [= ->].
    by destruct (He k).
  - destruct (entries !! k0) as [v'|] eqn:Hk0; simpl.
    + intros (before & after & m & -> & Hb & Hm)%IH.
      exists (k0 :: before), after, m. split; [done|]. split; [|done].
      simpl. by rewrite Hk0.
    + intros [= <-]. by exists [], ks, entries.
Qed.

(** C9, as amended.  [walk_key_chain] resolves a key path by subscripting
    key after key.  For nested mappings whose leaves cannot be subscripted
    by a string (numbers, arrays): it returns an object exactly when the
    path leads to one in the nesting, and then that object; it fails with
    the [KeyError] of a key exactly when the keys before an occurrence of
    that key lead to a dictionary that lacks it; and a path that goes on
    where a leaf is reached fails with what subscripting the leaf raises,
    which is no [KeyError]. *)
Theorem walk_key_chain_resolves (t : tree A) key_chain :
  (∀ v, walk_key_chain leaf_getitem t key_chain = Ok v
        ↔ at_path t key_chain = Some v)
  ∧ (∀ k, walk_key_chain leaf_getitem t key_chain = Err (KeyError k)
          ↔ ∃ before after entries,
              key_chain = before ++ k :: after
              ∧ at_path t before = Some (Group entries)
              ∧ entries !! k = None)
  ∧ (∀ before k after x,
       key_chain = before ++ k :: after →
       at_path t before = Some (Leaf x) →
       walk_key_chain leaf_getitem t key_chain = leaf_getitem x k
       ∧ ∀ k', walk_key_chain leaf_getitem t key_chain ≠ Err (KeyError k')).
Proof.
  split; [|split].
  - intros v. split; [apply walk_key_chain_Ok | apply walk_key_chain_at_path].
  - intros k. split; [apply walk_key_chain_KeyError|].
    intros (before & after & entries & -> & Hb & Hk).
    rewrite walk_key_chain_app, (walk_key_chain_at_path _ _ _ _ Hb). simpl.
    rewrite walk_key_chain_cons. simpl. by rewrite Hk.
  - intros before k after x -> Hb.
    rewrite walk_key_chain_app, (walk_key_chain_at_path _ _ _ _ Hb). simpl.
    rewrite walk_key_chain_cons. simpl.
    destruct (Hleaf x k) as (e & -> & He). simpl. split; [done|].
    intros k' [= ->]. by destruct (He k').
Qed.

End leaves_raise.


End weights_facts.

Section walk_facts.
Import Weights.
Context {A B C : Type}.





End walk_facts.

(** C9, the claim as it stands: in [{'a': 15}] the key ['b'] of the path
    [['a', 'b']] is absent at its level, there being no entry for the
    path, and yet the lookup fails with the [TypeError] of subscripting the
    number (the [IndexError] of subscripting an array, were the leaf one),
    not with a [KeyError]. *)
Lemma walk_key_chain_through_leaf :
  let d : Weights.tree nat := Weights.Group {[ "a" := Weights.Leaf 15 ]} in
  Weights.at_path d ["a"; "b"] = None
  ∧ Weights.walk_key_chain Weights.number_getitem d ["a"; "b"] = Err TypeError
  ∧ Weights.walk_key_chain Weights.array_getitem d ["a"; "b"] = Err IndexError
  ∧ ∀ k, Weights.walk_key_chain Weights.number_getitem d ["a"; "b"]
         ≠ Err (KeyError k).
Proof. repeat (split; [reflexivity|]). discriminate. Qed.

(** The example of the docstring of [walk_key_chain]. *)
Lemma walk_key_chain_resolves_witness :
  let d : Weights.tree nat :=
    Weights.Group
      {[ "a" := Weights.Group
                  {[ "b" := Weights.Group {[ "c" := Weights.Leaf 15 ]} ]} ]} in
  let key_chain := ["a"; "b"; "c"] in
  (∀ v, Weights.walk_key_chain Weights.number_getitem d key_chain = Ok v
        ↔ Weights.at_path d key_chain = Some v)
  ∧ (∀ k, Weights.walk_key_chain Weights.number_getitem d key_chain
          = Err (KeyError k)
          ↔ ∃ before after entries,
              key_chain = before ++ k :: after
              ∧ Weights.at_path d before = Some (Weights.Group entries)
              ∧ entries !! k = None)
  ∧ (∀ before k after x,
       key_chain = before ++ k :: after →
       Weights.at_path d before = Some (Weights.Leaf x) →
       Weights.walk_key_chain Weights.number_getitem d key_chain
       = Weights.number_getitem x k
       ∧ ∀ k', Weights.walk_key_chain Weights.number_getitem d key_chain
               ≠ Err (KeyError k')).
Proof.
  intros d key_chain.
  apply (walk_key_chain_resolves Weights.number_getitem).
  intros x k. exists TypeError. split; [reflexivity | discriminate].
Defined.

Section load_facts.
Import Weights.
Context {Dataset Array : Type}.
Variable np_array : Dataset → Array.
Variable h5 : gmap string (gmap string (tree Dataset)).

Lemma load_each_all weights_names weights :
  Forall (λ n, is_Some (h5 !! weights_file n)) weights_names →
  load_each np_array h5 weights_names weights
  = Ok (weights ++ map (weights_of np_array h5) weights_names).
Proof.
  revert weights. induction weights_names as [|n ns IH]; intros weights Hall.
  - simpl. by rewrite app_nil_r.
  - inversion Hall as [|? ? [file Hfile] Hns]; subst.
    cbn [load_each]. change ("weights/" +:+ n +:+ ".h5") with (weights_file n).
    rewrite Hfile.
    rewrite IH by done. rewrite <- app_assoc. simpl.
    unfold weights_of at 2. by rewrite Hfile.
Qed.

(** C7, as amended. For one or more requested names whose weight
    files exist, [load_weights] returns the single mapping when exactly one
    name is requested, and otherwise the list of the mappings in the order
    of the names. *)
Theorem load_weights_shape weights_names :
  weights_names ≠ [] →
  Forall (λ n, is_Some (h5 !! weights_file n)) weights_names →
  load_weights np_array h5 weights_names
  = Ok (match weights_names with
        | [n] => Single (weights_of np_array h5 n)
        | _ => Several (map (weights_of np_array h5) weights_names)
        end).
Proof.
  intros Hne Hall. unfold load_weights. rewrite load_each_all by done. simpl.
  destruct weights_names as [|n [|n' ns]]; [done|done|].
  done.
Qed.


End load_facts.

(** C7, the case the claim adds: with no name requested nothing is
    returned, the subscript [weights[0]] fails. *)
Lemma load_weights_no_names :
  Weights.load_weights (λ x : nat, x) Examples.h5_two [] = Err IndexError
  ∧ Weights.load_weights (λ x : nat, x) Examples.h5_two []
    ≠ Ok (Weights.Several []).
Proof. split; [reflexivity | discriminate]. Qed.


Lemma load_weights_shape_witness :
  Weights.load_weights (λ x : nat, x) Examples.h5_two ["alexnet"; "vgg16"]
  = Ok (Weights.Several
          [Weights.weights_of (λ x : nat, x) Examples.h5_two "alexnet";
           Weights.weights_of (λ x : nat, x) Examples.h5_two "vgg16"]).
Proof.
  apply (load_weights_shape (λ x : nat, x) Examples.h5_two ["alexnet"; "vgg16"]).
  - discriminate.
  - repeat constructor; vm_compute; eauto.
Defined.

(** * Properties of the acquisition script *)

Section download_facts.
Import DownloadData.

Lemma bind_run {A B} (m : M A) (k : A → M B) (w : world) :
  (m ≫= k) w = match m w with
               | (Ok a, w') => k a w'
               | (Err e, w') => (Err e, w')
               end.
Proof. reflexivity. Qed.

Lemma bind_Ok {A B} (m : M A) (k : A → M B) w b w' :
  (m ≫= k) w = (Ok b, w') →
  ∃ a w1, m w = (Ok a, w1) ∧ k a w1 = (Ok b, w').
Proof.
  rewrite bind_run. destruct (m w) as [[a|e] w1]; [eauto | done].
Qed.

Lemma bind_step {A B} (m : M A) (k : A → M B) w a w1 :
  m w = (Ok a, w1) → (m ≫= k) w = k a w1.
Proof. intros H. by rewrite bind_run, H. Qed.

(** *** The file system *)

Lemma stat_nil n : stat [] n = match n with File c => IsFile c | Dir _ => IsDir end.
Proof. reflexivity. Qed.

Lemma stat_cons c q n :
  stat (c :: q) n
  = match n with
    | File _ => Absent
    | Dir entries =>
        match entries !! c with Some n' => stat q n' | None => Absent end
    end.
Proof.
  unfold stat. simpl. destruct n as [?|entries]; [done|].
  by destruct (entries !! c).
Qed.

Lemma isfile_stat q n : isfile q n = true ↔ ∃ c, stat q n = IsFile c.
Proof.
  unfold isfile, stat. destruct (lookup_path q n) as [[c|?]|]; split;
    try done; try (intros [? ?]; done). eauto.
Qed.

Lemma isdir_stat q n : isdir q n = true ↔ stat q n = IsDir.
Proof. unfold isdir, stat. by destruct (lookup_path q n) as [[c|?]|]. Qed.

Lemma exists_stat q n : exists_ q n = false ↔ stat q n = Absent.
Proof. unfold exists_, stat. by destruct (lookup_path q n) as [[c|?]|]. Qed.

(** A change at [p] shows only at [p] and below. *)
Lemma stat_set_path p x q n :
  ¬ p `prefix_of` q → stat q (set_path p x n) = stat q n.
Proof.
  revert q n. induction p as [|c p IH]; intros q n Hpre.
  - destruct Hpre. apply prefix_nil.
  - destruct n as [?|entries]; [done|].
    destruct q as [|c' q].
    + simpl. by destruct p.
    + assert (c ≠ c' ∨ (c = c' ∧ ¬ p `prefix_of` q)) as Hcase.
      { destruct (decide (c = c')) as [->|]; [right|by left].
        split; [done|]. intros Hp. apply Hpre. by apply prefix_cons. }
      simpl. destruct p as [|c2 p].
      * destruct Hcase as [Hne|[-> Hq]]; [|destruct Hq; apply prefix_nil].
        rewrite !stat_cons. by rewrite lookup_partial_alter_ne.
      * rewrite !stat_cons. destruct Hcase as [Hne|[-> Hq]].
        -- by rewrite lookup_alter_ne.
        -- rewrite lookup_alter_eq. destruct (entries !! c') as [n'|]; [|done].
           simpl. by apply IH.
Qed.

Lemma lookup_path_app p r n :
  lookup_path (p ++ r) n = lookup_path p n ≫= lookup_path r.
Proof.
  revert n. induction p as [|c p IH]; intros n; [done|].
  simpl. destruct n as [?|entries]; [done|].
  destruct (entries !! c) as [n'|]; [apply IH | done].
Qed.

(** What exists has directories above it. *)
Lemma stat_above p r n :
  r ≠ [] → stat (p ++ r) n ≠ Absent → stat p n = IsDir.
Proof.
  unfold stat. rewrite lookup_path_app.
  destruct (lookup_path p n) as [[c|entries]|]; simpl; try done.
  by destruct r.
Qed.

(** Below what is absent or a regular file there is nothing. *)
Lemma stat_below p r n :
  r ≠ [] → stat p n ≠ IsDir → stat (p ++ r) n = Absent.
Proof.
  intros Hr Hp. destruct (stat (p ++ r) n) eqn:Hs; [done| |].
  - destruct Hp. apply (stat_above p r); [done | by rewrite Hs].
  - destruct Hp. apply (stat_above p r); [done | by rewrite Hs].
Qed.

Lemma removelast_join p c : removelast (join p c) = p.
Proof. apply removelast_last. Qed.

Lemma lookup_set_path p x n :
  p ≠ [] → isdir (removelast p) n = true →
  lookup_path p (set_path p x n) = x.
Proof.
  revert n. induction p as [|c p IH]; intros n Hne Hdir; [done|].
  destruct p as [|c2 p].
  - simpl in *. unfold isdir in Hdir. simpl in Hdir.
    destruct n as [?|entries]; [done|]. simpl.
    rewrite lookup_partial_alter_eq. by destruct x.
  - change (removelast (c :: c2 :: p)) with (c :: removelast (c2 :: p)) in Hdir.
    unfold isdir in Hdir. simpl in Hdir.
    destruct n as [?|entries]; [done|].
    change (lookup_path (c :: c2 :: p) (set_path (c :: c2 :: p) x (Dir entries)))
      with (alter (set_path (c2 :: p) x) c entries !! c
            ≫= lookup_path (c2 :: p)).
    rewrite lookup_alter_eq.
    destruct (entries !! c) as [n'|] eqn:Hc; [|done]. simpl.
    apply IH; [done|]. unfold isdir. exact Hdir.
Qed.

Lemma stat_set_path_file p c n :
  p ≠ [] → isdir (removelast p) n = true →
  stat p (set_path p (Some (File c)) n) = IsFile c.
Proof. intros. unfold stat. by rewrite lookup_set_path. Qed.

Lemma stat_set_path_dir p entries n :
  p ≠ [] → isdir (removelast p) n = true →
  stat p (set_path p (Some (Dir entries)) n) = IsDir.
Proof. intros. unfold stat. by rewrite lookup_set_path. Qed.

(** *** What a call keeps *)

Lemma preserved_refl q root : preserved q root root.
Proof. by intros ?. Qed.

Lemma preserved_trans q r1 r2 r3 :
  preserved q r1 r2 → preserved q r2 r3 → preserved q r1 r3.
Proof.
  unfold preserved. intros H12 H23 H1. rewrite <- (H12 H1). apply H23.
  by rewrite (H12 H1).
Qed.

Lemma preserved_set_path p x q root :
  ¬ p `prefix_of` q → preserved q root (set_path p x root).
Proof. intros Hp _. by apply stat_set_path. Qed.

(** Making what was absent keeps everything. *)
Lemma preserved_create p x q root :
  stat p root = Absent → preserved q root (set_path p x root).
Proof.
  intros Hp. destruct (decide (p `prefix_of` q)) as [[r ->]|];
    [|by apply preserved_set_path].
  intros Hq. destruct Hq. destruct r as [|c r].
  - by rewrite app_nil_r.
  - apply stat_below; [done | by rewrite Hp].
Qed.

Lemma keeps_ret {A} Q (a : A) : keeps Q (mret a).
Proof. intros w q _. apply preserved_refl. Qed.

Lemma keeps_raise {A} Q e : keeps Q (@raise A e).
Proof. intros w q _. apply preserved_refl. Qed.

Lemma keeps_emit Q ev : keeps Q (emit ev).
Proof. intros w q _. apply preserved_refl. Qed.

Lemma keeps_assert Q b m : keeps Q (assert b m).
Proof. destruct b; [apply keeps_ret | apply keeps_raise]. Qed.

Lemma keeps_bind {A B} Q (m : M A) (k : A → M B) :
  keeps Q m → (∀ a, keeps Q (k a)) → keeps Q (m ≫= k).
Proof.
  intros Hm Hk w q Hq. rewrite bind_run.
  specialize (Hm w q Hq). destruct (m w) as [[a|e] w1]; [|exact Hm].
  eapply preserved_trans; [exact Hm|]. by apply Hk.
Qed.

Lemma keeps_weaken {A} (Q Q' : list string → Prop) (m : M A) :
  (∀ q, Q' q → Q q) → keeps Q m → keeps Q' m.
Proof. intros HQ Hm w q Hq. apply Hm, HQ, Hq. Qed.

Lemma keeps_for_each {A} Q (xs : list A) body :
  (∀ x, x ∈ xs → keeps Q (body x)) → keeps Q (for_each xs body).
Proof.
  induction xs as [|x xs IH]; intros Hbody; [apply keeps_ret|].
  simpl. apply keeps_bind.
  - apply Hbody. left.
  - intros _. apply IH. intros y Hy. apply Hbody. by right.
Qed.

Lemma keeps_fold_dict {A} Q (xs : list A) body truths :
  (∀ x t, keeps Q (body x t)) → keeps Q (fold_dict xs body truths).
Proof.
  intros Hbody. revert truths.
  induction xs as [|x xs IH]; intros truths; [apply keeps_ret|].
  simpl. apply keeps_bind; [apply Hbody | intros t; apply IH].
Qed.

(** A call that only reads the file system. *)
Lemma keeps_read {A} Q (f : node → M A) :
  (∀ root, keeps Q (f root)) → keeps Q (get_fs ≫= f).
Proof. intros Hf w q Hq. rewrite bind_run. simpl. by apply Hf. Qed.

Lemma keeps_os_path_exists Q p : keeps Q (os_path_exists p).
Proof. apply keeps_read. intros ?. apply keeps_ret. Qed.

Lemma keeps_os_path_isfile Q p : keeps Q (os_path_isfile p).
Proof. apply keeps_read. intros ?. apply keeps_ret. Qed.

Lemma keeps_os_path_isdir Q p : keeps Q (os_path_isdir p).
Proof. apply keeps_read. intros ?. apply keeps_ret. Qed.

Lemma keeps_read_file Q p : keeps Q (read_file p).
Proof.
  apply keeps_read. intros root.
  destruct (lookup_path p root) as [[c|?]|];
    [apply keeps_ret | apply keeps_raise | apply keeps_raise].
Qed.

Lemma keeps_glob E Q above d ext : keeps Q (glob E above d ext).
Proof.
  apply keeps_read. intros ?. destruct (literal_pattern _ _); apply keeps_ret.
Qed.

Lemma keeps_write_file (Q : list string → Prop) p c :
  (∀ q, Q q → ¬ p `prefix_of` q) → keeps Q (write_file p c).
Proof.
  intros HQ w q Hq. unfold write_file. rewrite bind_run. simpl.
  destruct (isdir p (fs w)); [apply preserved_refl|].
  destruct (isdir (removelast p) (fs w)); [|apply preserved_refl].
  simpl. apply preserved_set_path. by apply HQ.
Qed.

Lemma keeps_os_mkdir Q p : keeps Q (os_mkdir p).
Proof.
  intros w q _. unfold os_mkdir. rewrite bind_run. simpl.
  destruct (exists_ p (fs w)) eqn:Hex; [apply preserved_refl|].
  destruct (isdir (removelast p) (fs w)); [|apply preserved_refl].
  simpl. apply preserved_create. by apply exists_stat.
Qed.

Lemma keeps_makedirs_from Q base todo exist_ok :
  keeps Q (makedirs_from base todo exist_ok).
Proof.
  revert base. induction todo as [|c todo IH]; intros base.
  - simpl. destruct exist_ok; [apply keeps_ret | apply keeps_raise].
  - simpl. apply keeps_read. intros root. destruct todo as [|c2 todo].
    + destruct (_ && _); [apply keeps_ret | apply keeps_os_mkdir].
    + apply keeps_bind; [|intros _; apply IH].
      destruct (exists_ _ _); [apply keeps_ret | apply keeps_os_mkdir].
Qed.

Lemma keeps_os_makedirs Q name exist_ok : keeps Q (os_makedirs name exist_ok).
Proof. apply keeps_makedirs_from. Qed.

Lemma keeps_os_remove (Q : list string → Prop) p :
  (∀ q, Q q → ¬ p `prefix_of` q) → keeps Q (os_remove p).
Proof.
  intros HQ w q Hq. unfold os_remove. rewrite bind_run. simpl.
  destruct (lookup_path p (fs w)) as [[c|?]|]; try apply preserved_refl.
  simpl. apply preserved_set_path. by apply HQ.
Qed.

Lemma keeps_shutil_rmtree (Q : list string → Prop) p :
  (∀ q, Q q → ¬ p `prefix_of` q) → keeps Q (shutil_rmtree p).
Proof.
  intros HQ w q Hq. unfold shutil_rmtree. rewrite bind_run. simpl.
  destruct (lookup_path p (fs w)) as [[c|?]|]; try apply preserved_refl.
  simpl. apply preserved_set_path. by apply HQ.
Qed.

Lemma keeps_shutil_move (Q : list string → Prop) src dst :
  (∀ q, Q q → ¬ src `prefix_of` q ∧ ¬ dst `prefix_of` q) →
  keeps Q (shutil_move src dst).
Proof.
  intros HQ w q Hq. destruct (HQ q Hq) as [Hsrc Hdst].
  unfold shutil_move. rewrite bind_run. simpl.
  set (real_dst := if isdir dst (fs w) then join dst (split src).2 else dst).
  assert (¬ real_dst `prefix_of` q) as Hreal.
  { intros Hp. apply Hdst. etrans; [|exact Hp]. unfold real_dst, join.
    destruct (isdir dst (fs w)); [by apply prefix_app_r | done]. }
  destruct (_ && _); [apply preserved_refl|].
  destruct (lookup_path src (fs w)) as [n|]; [|apply preserved_refl].
  repeat (case_match; try apply preserved_refl).
  all: simpl; apply (preserved_trans _ _ (set_path src None (fs w)));
    by apply preserved_set_path.
Qed.

(** *** Paths *)

Lemma append_assoc (a b c : string) : (a +:+ b) +:+ c = a +:+ (b +:+ c).
Proof.
  induction a as [|x a IH]; [done|].
  change (String x ((a +:+ b) +:+ c) = String x (a +:+ (b +:+ c))).
  by rewrite IH.
Qed.

Lemma prefix_append (a b : string) : String.prefix a (a +:+ b) = true.
Proof.
  induction a as [|x a IH]; [by destruct b|].
  change (String.prefix (String x a) (String x (a +:+ b)) = true).
  simpl. destruct (Ascii.ascii_dec x x); [exact IH | done].
Qed.

Lemma add_suffix_join p c sfx : add_suffix (join p c) sfx = join p (c +:+ sfx).
Proof.
  unfold join. induction p as [|x p IH]; [done|].
  simpl. rewrite IH. by destruct p.
Qed.

Lemma add_suffix_twice p a b :
  add_suffix (add_suffix p a) b = add_suffix p (a +:+ b).
Proof.
  induction p as [|x p IH]; [done|].
  destruct p as [|y p].
  - simpl. by rewrite append_assoc.
  - change (add_suffix (x :: y :: p) a) with (x :: add_suffix (y :: p) a).
    change (add_suffix (x :: y :: p) (a +:+ b))
      with (x :: add_suffix (y :: p) (a +:+ b)).
    rewrite <- IH.
    destruct (add_suffix (y :: p) a) eqn:Hs; [by destruct p|done].
Qed.

Lemma prefix_join_cons p x t r : join p x `prefix_of` p ++ t :: r → x = t.
Proof.
  unfold join. intros H%prefix_app_inv.
  destruct H as [k Hk]. by injection Hk.
Qed.

(** *** Names without wildcards *)

Lemma has_append a (s t : string) :
  has a (s +:+ t) = has a s || has a t.
Proof.
  induction s as [|b s IH]; [done|].
  change (has a (String b (s +:+ t)) = has a (String b s) || has a t).
  simpl. rewrite IH. by rewrite orb_assoc.
Qed.

Lemma has_magic_append (s t : string) :
  has_magic (s +:+ t) = has_magic s || has_magic t.
Proof.
  unfold has_magic. rewrite !has_append.
  destruct (has STAR s), (has QUESTION s), (has BRACKET s),
    (has STAR t), (has QUESTION t); done.
Qed.

Lemma literal_path_join p c :
  literal_path (join p c) = literal_path p && negb (has_magic c).
Proof.
  unfold literal_path, join. rewrite forallb_app. simpl.
  by rewrite andb_true_r.
Qed.

Lemma literal_path_app p r :
  literal_path (p ++ r) = literal_path p && literal_path r.
Proof. apply forallb_app. Qed.

Lemma plain_names_literal p : forallb plain_name p = true → literal_path p = true.
Proof.
  unfold literal_path. rewrite !forallb_forall. intros H c Hc.
  specialize (H c Hc). unfold plain_name in H. by apply andb_prop in H as [_ ?].
Qed.

Lemma plain_name_literal c : plain_name c = true → has_magic c = false.
Proof.
  unfold plain_name. intros [_ H]%andb_prop. by apply negb_true_iff in H.
Qed.

(** *** What the calls of the script keep *)

Lemma keeps_urlretrieve E (Q : list string → Prop) url filename :
  (∀ q, Q q → ¬ filename `prefix_of` q) → keeps Q (urlretrieve E url filename).
Proof.
  intros HQ. unfold urlretrieve. apply keeps_bind; [apply keeps_emit|].
  intros _. destruct (http E url) as [|body content_length arrived|bytes].
  - apply keeps_raise.
  - apply keeps_bind; [by apply keeps_write_file|]. intros _.
    destruct (too_short _ _); [apply keeps_raise | apply keeps_ret].
  - apply keeps_bind; [by apply keeps_write_file | intros; apply keeps_raise].
Qed.

Lemma keeps_download_from_url E (Q : list string → Prop) url local_path :
  (∀ q, Q q → ¬ local_path `prefix_of` q
              ∧ ¬ add_suffix local_path ".filepart" `prefix_of` q) →
  keeps Q (download_from_url E url local_path).
Proof.
  intros HQ. unfold download_from_url. apply keeps_bind.
  - apply keeps_urlretrieve. intros q Hq. by apply HQ.
  - intros _. apply keeps_shutil_move. intros q Hq.
    destruct (HQ q Hq). done.
Qed.

Lemma keeps_download_if_needed Q local_path retrieve :
  keeps Q (retrieve local_path) →
  keeps Q (download_if_needed local_path retrieve).
Proof.
  intros Hr. unfold download_if_needed.
  apply keeps_bind; [apply keeps_os_path_isfile|]. intros is_file.
  apply keeps_bind; [|intros; apply keeps_ret].
  destruct (negb is_file).
  - apply keeps_bind; [apply keeps_emit | by intros].
  - apply keeps_emit.
Qed.

Lemma keeps_make_upperdirs Q targetpath : keeps Q (make_upperdirs targetpath).
Proof.
  unfold make_upperdirs.
  apply keeps_bind; [apply keeps_os_path_exists|]. intros present.
  destruct present; [apply keeps_ret | apply keeps_os_makedirs].
Qed.

(** A regular file or a directory is extracted below the target. *)
Lemma keeps_extract_member E (Q : list string → Prop) target m :
  plain_member m = true →
  (∀ q, Q q → ¬ target `prefix_of` q) →
  keeps Q (extract_member E target m).
Proof.
  intros Hm HQ. destruct m as [name data|name|name]; [| |done]; simpl.
  - apply keeps_bind; [apply keeps_make_upperdirs|].
    intros _. apply keeps_write_file. intros q Hq Hp. apply (HQ q Hq).
    by eapply prefix_app_l.
  - apply keeps_bind; [apply keeps_make_upperdirs|]. intros _.
    apply keeps_bind; [apply keeps_os_path_exists|]. intros there.
    destruct there; [apply keeps_ret | apply keeps_os_mkdir].
Qed.

Lemma keeps_extract_tar E (Q : list string → Prop) filepath target :
  plain_archives E →
  (∀ q, Q q → ¬ target `prefix_of` q ∧ ¬ filepath `prefix_of` q) →
  keeps Q (extract_tar E filepath target).
Proof.
  intros Hplain HQ. unfold extract_tar.
  apply keeps_bind; [apply keeps_emit|]. intros _.
  apply keeps_bind; [apply keeps_read_file|]. intros [bytes|?];
    [|apply keeps_raise].
  destruct (untar E _ bytes) as [[members complete]|] eqn:Huntar;
    [|apply keeps_raise].
  apply Hplain in Huntar. rewrite forallb_forall in Huntar.
  apply keeps_bind; [apply keeps_emit|]. intros _.
  apply keeps_bind.
  - apply keeps_for_each. intros m Hm. apply keeps_extract_member.
    + by apply Huntar, list_elem_of_In.
    + intros q Hq. by apply HQ.
  - intros _. apply keeps_bind.
    + destruct complete; [apply keeps_ret | apply keeps_raise].
    + intros _. apply keeps_os_remove. intros q Hq. by apply HQ.
Qed.

Lemma keeps_retrieve_tarred_content E (Q : list string → Prop) url local_path :
  plain_archives E →
  (∀ q, Q q → ¬ local_path `prefix_of` q
              ∧ ∀ sfx, ¬ add_suffix local_path sfx `prefix_of` q) →
  keeps Q (retrieve_tarred_content E url local_path).
Proof.
  intros Hplain HQ. unfold retrieve_tarred_content.
  apply keeps_bind; [apply keeps_assert|]. intros _.
  apply keeps_bind; [apply keeps_os_path_exists|]. intros present.
  destruct present; [apply keeps_emit|].
  apply keeps_bind.
  - apply keeps_download_if_needed, keeps_download_from_url.
    intros q Hq. destruct (HQ q Hq) as [_ Hs]. split; [apply Hs|].
    rewrite add_suffix_twice. apply Hs.
  - intros _. apply keeps_extract_tar; [done|]. intros q Hq.
    destruct (HQ q Hq) as [? Hs]. split; [done | apply Hs].
Qed.

Lemma keeps_collect_images E Q images_directory filetype :
  keeps Q (collect_images E images_directory filetype).
Proof.
  unfold collect_images. apply keeps_bind; [apply keeps_glob|].
  intros. apply keeps_ret.
Qed.

Lemma keeps_bind_post {A B} Q (P : A → Prop) (m : M A) (k : A → M B) :
  keeps Q m → (∀ w a w1, m w = (Ok a, w1) → P a) →
  (∀ a, P a → keeps Q (k a)) → keeps Q (m ≫= k).
Proof.
  intros Hm HP Hk w q Hq. rewrite bind_run.
  specialize (Hm w q Hq). specialize (HP w).
  destruct (m w) as [[a|e] w1]; [|exact Hm].
  eapply preserved_trans; [exact Hm|]. apply Hk; [|done]. by eapply HP.
Qed.

Lemma keeps_truths_stage dataset convert (Q : list string → Prop)
    data_type cd ddir tfile truths :
  keeps Q (convert cd data_type) →
  (∀ q, Q q → ¬ tfile `prefix_of` q) →
  keeps Q (truths_stage dataset convert data_type cd ddir tfile truths).
Proof.
  intros Hconv HQ. unfold truths_stage.
  apply keeps_bind; [apply keeps_os_path_isfile|]. intros [|].
  - apply keeps_bind; [apply keeps_emit | intros; apply keeps_ret].
  - apply keeps_bind; [apply keeps_emit|]. intros _.
    apply keeps_bind; [exact Hconv|]. intros truths'.
    apply keeps_bind; [apply keeps_assert|]. intros _.
    apply keeps_bind; [apply keeps_os_makedirs|]. intros _.
    apply keeps_bind; [by apply keeps_write_file | intros; apply keeps_ret].
Qed.

(** The moves of the images and the removal of the staging directory. *)
Lemma keeps_images_moves (Q : list string → Prop) cd idir src files :
  cd `prefix_of` src →
  (∀ q, Q q → ¬ cd `prefix_of` q ∧ ∀ f, ¬ join idir f `prefix_of` q) →
  keeps Q (for_each files (λ f, shutil_move (join src f) (join idir f)) ;;
           shutil_rmtree cd).
Proof.
  intros Hsrc HQ. apply keeps_bind.
  - apply keeps_for_each. intros f _. apply keeps_shutil_move.
    intros q Hq. destruct (HQ q Hq) as [Hcd Hidir]. split; [|apply Hidir].
    intros Hp. apply Hcd. etrans; [exact Hsrc|]. by eapply prefix_app_l.
  - intros _. apply keeps_shutil_rmtree. intros q Hq. by apply HQ.
Qed.

Lemma keeps_images_stage dataset collect (Q : list string → Prop)
    data_type cd idir truths :
  keeps Q (collect cd) →
  (∀ w src files w', collect cd w = (Ok (src, files), w') → cd `prefix_of` src) →
  (∀ q, Q q → ¬ cd `prefix_of` q ∧ ∀ f, ¬ join idir f `prefix_of` q) →
  keeps Q (images_stage dataset collect data_type cd idir truths).
Proof.
  intros Hcoll Hsrc HQ. unfold images_stage.
  apply keeps_bind; [apply keeps_os_path_isdir|]. intros [|];
    [apply keeps_emit|].
  apply keeps_bind; [apply keeps_emit|]. intros _.
  apply (keeps_bind_post Q (λ collected, cd `prefix_of` collected.1));
    [exact Hcoll | by intros w [src files] w' ?%Hsrc |].
  intros [src files] Hpre. simpl in *.
  apply keeps_bind; [apply keeps_assert|]. intros _.
  destruct truths as [t|]; [|apply keeps_raise].
  apply keeps_bind; [apply keeps_assert|]. intros _.
  apply keeps_bind; [apply keeps_assert|]. intros _.
  apply keeps_bind; [apply keeps_os_makedirs|]. intros _.
  by apply keeps_images_moves.
Qed.

(** *** What a call that returns has made *)

Lemma os_path_isfile_run p w : os_path_isfile p w = (Ok (isfile p (fs w)), w).
Proof. reflexivity. Qed.

Lemma os_path_isdir_run p w : os_path_isdir p w = (Ok (isdir p (fs w)), w).
Proof. reflexivity. Qed.

Lemma os_path_exists_run p w : os_path_exists p w = (Ok (exists_ p (fs w)), w).
Proof. reflexivity. Qed.

Lemma print_run m w : print m w = (Ok (), World (fs w) (log w ++ [Print m])).
Proof. reflexivity. Qed.

Lemma preserved_isfile q root root' :
  isfile q root = true → preserved q root root' → isfile q root' = true.
Proof.
  intros [c Hc]%isfile_stat Hp. apply isfile_stat. exists c.
  rewrite Hp; [done | by rewrite Hc].
Qed.

Lemma preserved_isdir q root root' :
  isdir q root = true → preserved q root root' → isdir q root' = true.
Proof.
  intros Hd%isdir_stat Hp. apply isdir_stat.
  rewrite Hp; [done | by rewrite Hd].
Qed.

Lemma write_file_Ok p c w w' :
  write_file p c w = (Ok (), w') → isfile p (fs w') = true.
Proof.
  unfold write_file. rewrite bind_run. simpl.
  destruct (isdir p (fs w)) eqn:Hp; [done|].
  destruct (isdir (removelast p) (fs w)) eqn:Hparent; [|done].
  intros [= <-]. simpl. apply isfile_stat. exists c.
  apply stat_set_path_file; [|done]. intros ->. simpl in Hparent. congruence.
Qed.

Lemma os_mkdir_Ok p w w' :
  os_mkdir p w = (Ok (), w') → isdir p (fs w') = true.
Proof.
  unfold os_mkdir. rewrite bind_run. simpl.
  destruct (exists_ p (fs w)) eqn:Hp; [done|].
  destruct (isdir (removelast p) (fs w)) eqn:Hparent; [|done].
  intros [= <-]. simpl. apply isdir_stat.
  apply stat_set_path_dir; [|done]. intros ->. simpl in Hparent.
  apply exists_stat in Hp. apply isdir_stat in Hparent. congruence.
Qed.

Lemma makedirs_from_Ok base todo exist_ok w w' :
  todo ≠ [] → makedirs_from base todo exist_ok w = (Ok (), w') →
  isdir (base ++ todo) (fs w') = true.
Proof.
  revert base w. induction todo as [|c todo IH]; intros base w Hne; [done|].
  simpl. rewrite bind_run. simpl. destruct todo as [|c2 todo].
  - destruct (exists_ _ _ && _ && isdir (join base c) (fs w)) eqn:Hc.
    + intros [= <-]. by apply andb_prop in Hc as [_ ?].
    + apply os_mkdir_Ok.
  - intros (_ & w1 & _ & H)%bind_Ok.
    apply IH in H; [|done]. unfold join in H. by rewrite <- app_assoc in H.
Qed.

Lemma makedirs_from_noop base todo w :
  isdir (base ++ todo) (fs w) = true →
  makedirs_from base todo true w = (Ok (), w).
Proof.
  revert base. induction todo as [|c todo IH]; intros base Hdir;
    [by destruct w|].
  simpl. rewrite bind_run. simpl. destruct todo as [|c2 todo].
  - unfold join. rewrite Hdir.
    assert (exists_ (base ++ [c]) (fs w) = true) as ->; [|by destruct w].
    unfold isdir in Hdir. unfold exists_.
    by destruct (lookup_path (base ++ [c]) (fs w)).
  - assert (base ++ c :: c2 :: todo = join base c ++ c2 :: todo) as Heq.
    { unfold join. by rewrite <- app_assoc. }
    rewrite Heq in Hdir.
    assert (exists_ (join base c) (fs w) = true) as ->.
    { destruct (exists_ (join base c) (fs w)) eqn:Hex; [done|].
      apply exists_stat in Hex. apply isdir_stat in Hdir.
      rewrite (stat_below (join base c) (c2 :: todo)) in Hdir; [done|done|].
      by rewrite Hex. }
    rewrite bind_run. simpl. by apply IH.
Qed.

Lemma truths_stage_Ok dataset convert data_type cd ddir tfile truths w tr w' :
  truths_stage dataset convert data_type cd ddir tfile truths w = (Ok tr, w') →
  isfile tfile (fs w') = true.
Proof.
  unfold truths_stage. rewrite bind_run, os_path_isfile_run.
  destruct (isfile tfile (fs w)) eqn:Hfile.
  - rewrite bind_run, print_run. by intros [= _ <-].
  - intros (_ & w1 & _ & H)%bind_Ok.
    apply bind_Ok in H as (truths' & w2 & _ & H).
    apply bind_Ok in H as (_ & w3 & _ & H).
    apply bind_Ok in H as (_ & w4 & _ & H).
    apply bind_Ok in H as ([] & w5 & H5 & H).
    injection H as _ <-. by apply write_file_Ok in H5.
Qed.

Lemma images_stage_Ok dataset collect data_type cd idir truths w w' :
  (∀ w src files w', collect cd w = (Ok (src, files), w') → cd `prefix_of` src) →
  ¬ cd `prefix_of` idir →
  images_stage dataset collect data_type cd idir truths w = (Ok (), w') →
  isdir idir (fs w') = true.
Proof.
  intros Hsrc Hcd. unfold images_stage. rewrite bind_run, os_path_isdir_run.
  destruct (isdir idir (fs w)) eqn:Hdir.
  - rewrite print_run. by intros [= <-].
  - intros (_ & w1 & _ & H)%bind_Ok.
    apply bind_Ok in H as ([src files] & w2 & Hcoll & H).
    apply Hsrc in Hcoll. simpl in H.
    apply bind_Ok in H as (_ & w3 & _ & H).
    destruct truths as [t|]; [|done].
    apply bind_Ok in H as (_ & w4 & _ & H).
    apply bind_Ok in H as (_ & w5 & _ & H).
    apply bind_Ok in H as ([] & w6 & Hmk & H).
    apply makedirs_from_Ok in Hmk; [|by destruct idir].
    pose proof (keeps_images_moves (λ q, q = idir) cd idir src files Hcoll) as Hk.
    eapply preserved_isdir; [exact Hmk|].
    replace (fs w') with (fs ((for_each files
      (λ f, shutil_move (join src f) (join idir f)) ;; shutil_rmtree cd) w6).2);
      [|by rewrite H].
    apply Hk; [|done]. intros q ->. split; [done|]. intros f.
    apply prefix_snoc_not.
Qed.

(** *** A second run of the orchestrator *)

Lemma prefix_refl_string (a : string) : String.prefix a a = true.
Proof.
  induction a as [|x a IH]; [done|].
  simpl. destruct (Ascii.ascii_dec x x); [exact IH | done].
Qed.

Lemma staging_apart_spec splits s t :
  staging_apart splits = true → s ∈ splits → t ∈ splits →
  String.prefix (s +:+ "_compressed") t = false.
Proof.
  unfold staging_apart. intros Hall Hs%list_elem_of_In Ht%list_elem_of_In.
  rewrite forallb_forall in Hall. specialize (Hall s Hs).
  rewrite forallb_forall in Hall. specialize (Hall t Ht).
  by apply negb_true_iff in Hall.
Qed.

Lemma outputs_shape ds splits q :
  outputs ds splits q → ∃ t y, t ∈ splits ∧ q = ds ++ [t; y].
Proof.
  intros (t & Ht & [->| ->]); exists t; eexists; (split; [done|]);
    unfold truths_path, images_path, join; by rewrite <- app_assoc.
Qed.

Lemma output_not_under ds splits name q :
  (∀ t, t ∈ splits → String.prefix name t = false) →
  outputs ds splits q →
  ¬ join ds name `prefix_of` q
  ∧ ∀ sfx, ¬ add_suffix (join ds name) sfx `prefix_of` q.
Proof.
  intros Hname (t & y & Ht & ->)%outputs_shape.
  specialize (Hname t Ht). split.
  - intros <-%prefix_join_cons. by rewrite prefix_refl_string in Hname.
  - intros sfx. rewrite add_suffix_join. intros <-%prefix_join_cons.
    by rewrite prefix_append in Hname.
Qed.

Lemma staging_not_output ds splits s q :
  staging_apart splits = true → s ∈ splits → outputs ds splits q →
  ¬ join ds (s +:+ "_compressed") `prefix_of` q
  ∧ ∀ sfx, ¬ add_suffix (join ds (s +:+ "_compressed")) sfx `prefix_of` q.
Proof.
  intros Hnames Hs (t & y & Ht & ->)%outputs_shape.
  pose proof (staging_apart_spec splits s t Hnames Hs Ht) as Hst.
  split.
  - intros <-%prefix_join_cons. by rewrite prefix_refl_string in Hst.
  - intros sfx. rewrite add_suffix_join. intros <-%prefix_join_cons.
    by rewrite prefix_append in Hst.
Qed.

Section rerun.
Variables (E : env) (dataset : string).
Variable convert : list string → string → M (gmap string string).
Variable collect : list string → M (list string * list string).
Variables (dd splits : list string).
#[local] Abbreviation ds := (join dd dataset).
#[local] Abbreviation staging s := (join (join dd dataset) (s +:+ "_compressed")).
Hypothesis Hplain : plain_archives E.
Hypothesis Hnames : staging_apart splits = true.
Hypothesis Hconv :
  ∀ s, s ∈ splits → keeps (outputs ds splits) (convert (staging s) s).
Hypothesis Hcoll :
  ∀ s, s ∈ splits → keeps (outputs ds splits) (collect (staging s)).
Hypothesis Hsrc :
  ∀ s w src files w', s ∈ splits →
    collect (staging s) w = (Ok (src, files), w') → staging s `prefix_of` src.

Lemma keeps_images_stage_outputs s truths :
  s ∈ splits →
  keeps (outputs ds splits)
    (images_stage dataset collect s (staging s) (images_path ds s) truths).
Proof.
  intros Hs. apply keeps_images_stage; [by apply Hcoll | by intros; eapply Hsrc |].
  intros q Hq. split; [by eapply staging_not_output|].
  intros f Hp. apply outputs_shape in Hq as (t & y & _ & ->).
  apply prefix_length in Hp. unfold images_path, join in Hp.
  rewrite !length_app in Hp. simpl in Hp. lia.
Qed.

Lemma download_split_keeps s url truths :
  s ∈ splits →
  keeps (λ q, outputs ds splits q ∧ q ≠ truths_path ds s)
    (download_split E dataset convert collect dd truths s url).
Proof.
  intros Hs. unfold download_split.
  apply keeps_bind; [apply keeps_os_path_isfile|]. intros have_truths.
  apply keeps_bind; [apply keeps_os_path_isdir|]. intros have_images.
  destruct (_ && _).
  { apply keeps_bind; [apply keeps_emit | intros; apply keeps_ret]. }
  apply keeps_bind; [apply keeps_emit|]. intros _.
  apply keeps_bind.
  { apply keeps_retrieve_tarred_content; [done|]. intros q [Hq _].
    by eapply staging_not_output. }
  intros _. apply keeps_bind.
  - apply keeps_truths_stage.
    + eapply keeps_weaken; [|by apply Hconv]. by intros q [? _].
    + intros q [Hq Hne] Hp. apply Hne. symmetry.
      apply prefix_length_eq; [done|].
      apply outputs_shape in Hq as (t & y & _ & ->).
      unfold truths_path, join. rewrite !length_app. simpl. lia.
  - intros truths'. apply keeps_bind; [|intros; apply keeps_ret].
    eapply keeps_weaken; [|by apply keeps_images_stage_outputs].
    by intros q [? _].
Qed.

Lemma download_split_ready s url truths w tr w' :
  s ∈ splits →
  download_split E dataset convert collect dd truths s url w = (Ok tr, w') →
  ready ds s (fs w').
Proof.
  intros Hs. unfold download_split.
  rewrite bind_run, os_path_isfile_run, bind_run, os_path_isdir_run.
  fold (truths_path ds s). fold (images_path ds s).
  destruct (isfile (truths_path ds s) (fs w)) eqn:Hfile;
    destruct (isdir (images_path ds s) (fs w)) eqn:Hdir; simpl.
  { rewrite bind_run, print_run. by intros [= _ <-]. }
  all: intros (_ & w1 & _ & H)%bind_Ok;
    apply bind_Ok in H as (_ & w2 & _ & H);
    apply bind_Ok in H as (truths' & w3 & Htruths & H);
    apply bind_Ok in H as ([] & w4 & Himages & H);
    injection H as _ <-;
    apply truths_stage_Ok in Htruths;
    (split;
     [ eapply preserved_isfile; [exact Htruths|];
       replace (fs w4) with
         (fs (images_stage dataset collect s (staging s) (images_path ds s)
                truths' w3).2) by (by rewrite Himages);
       apply keeps_images_stage_outputs; [done|];
       exists s; split; [done | by left]
     | eapply images_stage_Ok; [by intros; eapply Hsrc | | exact Himages];
       eapply (staging_not_output ds splits s); [done|done|];
       exists s; split; [done | by right] ]).
Qed.

Lemma download_split_ready_kept s t url truths w tr w' :
  s ∈ splits → t ∈ splits →
  download_split E dataset convert collect dd truths s url w = (Ok tr, w') →
  ready ds t (fs w) → ready ds t (fs w').
Proof.
  intros Hs Ht Hrun Hready.
  destruct (decide (t = s)) as [->|Hne]; [by eapply download_split_ready|].
  pose proof (download_split_keeps s url truths Hs w) as Hk.
  rewrite Hrun in Hk. simpl in Hk. destruct Hready as [Hf Hd]. split.
  - eapply preserved_isfile; [exact Hf|]. apply Hk. split.
    + exists t. split; [done | by left].
    + unfold truths_path, join. intros Heq. by simplify_list_eq.
  - eapply preserved_isdir; [exact Hd|]. apply Hk. split.
    + exists t. split; [done | by right].
    + unfold images_path, truths_path, join. intros Heq. by simplify_list_eq.
Qed.

Lemma download_splits_ready data_urls truths w w' :
  Forall (λ x, x.1 ∈ splits) data_urls →
  download_splits E dataset convert collect dd data_urls truths w = (Ok (), w') →
  (∀ t, t ∈ splits → ready ds t (fs w) → ready ds t (fs w'))
  ∧ Forall (λ x, ready ds x.1 (fs w')) data_urls.
Proof.
  intros Hall. revert truths w.
  induction Hall as [|[s url] rest Hs _ IH]; intros truths w.
  - simpl. intros [= <-]. by split.
  - simpl in *. intros (tr & w1 & Hsplit & Hrest)%bind_Ok.
    destruct (IH _ _ Hrest) as [Hkept Hrest_ready]. split.
    + intros t Ht Hready. apply Hkept; [done|].
      by apply (download_split_ready_kept s t url truths w tr w1).
    + constructor; [|done]. simpl. apply Hkept; [done|].
      by apply (download_split_ready s url truths w tr w1).
Qed.

End rerun.

(** A split that is ready is skipped. *)
Lemma download_split_skip E dataset convert collect dd truths s url w :
  ready (join dd dataset) s (fs w) →
  download_split E dataset convert collect dd truths s url w
  = (Ok truths, World (fs w) (log w ++ [Print (MsgSkipping dataset s)])).
Proof.
  intros [Hf Hd]. unfold download_split.
  rewrite bind_run, os_path_isfile_run, bind_run, os_path_isdir_run.
  unfold truths_path, images_path in Hf, Hd. rewrite Hf, Hd. simpl.
  by rewrite bind_run, print_run.
Qed.

(** When every split is ready, the loop only prints that it skips them. *)
Lemma download_splits_skip E dataset convert collect dd data_urls truths w :
  Forall (λ x, ready (join dd dataset) x.1 (fs w)) data_urls →
  download_splits E dataset convert collect dd data_urls truths w
  = (Ok (), World (fs w)
              (log w ++ map (λ x, Print (MsgSkipping dataset x.1)) data_urls)).
Proof.
  revert w. induction data_urls as [|[s url] rest IH]; intros w Hall.
  - simpl. rewrite app_nil_r. by destruct w.
  - inversion Hall as [|? ? Hs Hrest]; subst. simpl in *.
    erewrite bind_step; [|by apply download_split_skip].
    rewrite IH by done. simpl. by rewrite <- app_assoc.
Qed.

(** A run that returns leaves every split ready. *)
Lemma download_dataset_Ok_ready E dataset convert collect dd data_urls w w1 :
  plain_archives E →
  staging_apart (map fst data_urls) = true →
  (∀ s, s ∈ map fst data_urls →
     keeps (outputs (join dd dataset) (map fst data_urls))
       (convert (join (join dd dataset) (s +:+ "_compressed")) s)) →
  (∀ s, s ∈ map fst data_urls →
     keeps (outputs (join dd dataset) (map fst data_urls))
       (collect (join (join dd dataset) (s +:+ "_compressed")))) →
  (∀ s w src files w', s ∈ map fst data_urls →
     collect (join (join dd dataset) (s +:+ "_compressed")) w
     = (Ok (src, files), w') →
     join (join dd dataset) (s +:+ "_compressed") `prefix_of` src) →
  download_dataset E dataset convert collect dd data_urls w = (Ok (), w1) →
  Forall (λ x, ready (join dd dataset) x.1 (fs w1)) data_urls
  ∧ isdir (join dd dataset) (fs w1) = true.
Proof.
  intros Hplain Hnames Hconv Hcoll Hsrc. unfold download_dataset.
  intros ([] & w0 & Hmk & Hrun)%bind_Ok.
  assert (Forall (λ x : string * string, x.1 ∈ map fst data_urls) data_urls)
    as Hin.
  { apply Forall_forall. intros x Hx. by apply list_elem_of_fmap_2. }
  destruct (download_splits_ready E dataset convert collect dd
              (map fst data_urls) Hplain Hnames Hconv Hcoll Hsrc data_urls None
              w0 w1 Hin Hrun) as [_ Hready].
  split; [done|].
  destruct data_urls as [|[s url] rest].
  - simpl in Hrun. injection Hrun as <-.
    apply makedirs_from_Ok in Hmk; [done | by destruct dd].
  - inversion Hready as [|? ? [Hf _] _]; subst. simpl in Hf.
    apply isdir_stat. apply (stat_above _ [s; "ground_truths.p"]); [done|].
    apply isfile_stat in Hf as [c Hc]. unfold truths_path, join in Hc.
    rewrite <- app_assoc in Hc. simpl in Hc. unfold join. by rewrite Hc.
Qed.

(** A run over splits that are all ready only prints that it skips them. *)
Lemma download_dataset_skip E dataset convert collect dd data_urls w :
  Forall (λ x, ready (join dd dataset) x.1 (fs w)) data_urls →
  isdir (join dd dataset) (fs w) = true →
  download_dataset E dataset convert collect dd data_urls w
  = (Ok (), World (fs w)
              (log w ++ map (λ x, Print (MsgSkipping dataset x.1)) data_urls)).
Proof.
  intros Hready Hds. unfold download_dataset.
  rewrite bind_run. unfold os_makedirs.
  rewrite makedirs_from_noop by done.
  by apply download_splits_skip.
Qed.

Lemma download_dataset_rerun_aux E E' dataset convert collect convert' collect'
    dd data_urls w w1 :
  plain_archives E →
  staging_apart (map fst data_urls) = true →
  (∀ s, s ∈ map fst data_urls →
     keeps (outputs (join dd dataset) (map fst data_urls))
       (convert (join (join dd dataset) (s +:+ "_compressed")) s)) →
  (∀ s, s ∈ map fst data_urls →
     keeps (outputs (join dd dataset) (map fst data_urls))
       (collect (join (join dd dataset) (s +:+ "_compressed")))) →
  (∀ s w src files w', s ∈ map fst data_urls →
     collect (join (join dd dataset) (s +:+ "_compressed")) w
     = (Ok (src, files), w') →
     join (join dd dataset) (s +:+ "_compressed") `prefix_of` src) →
  download_dataset E dataset convert collect dd data_urls w = (Ok (), w1) →
  download_dataset E' dataset convert' collect' dd data_urls w1
  = (Ok (), World (fs w1)
              (log w1 ++ map (λ x, Print (MsgSkipping dataset x.1)) data_urls)).
Proof.
  intros Hplain Hnames Hconv Hcoll Hsrc Hrun.
  destruct (download_dataset_Ok_ready E dataset convert collect dd data_urls
              w w1 Hplain Hnames Hconv Hcoll Hsrc Hrun) as [Hready Hds].
  by apply download_dataset_skip.
Qed.

(** The orchestrator changes nothing outside the directory of its dataset,
    if its callbacks do not. *)
Lemma keeps_download_dataset E dataset convert collect dd data_urls
    (Q : list string → Prop) :
  plain_archives E →
  (∀ q, Q q → ¬ join dd dataset `prefix_of` q) →
  (∀ s dt, s ∈ map fst data_urls →
     keeps Q (convert (join (join dd dataset) (s +:+ "_compressed")) dt)) →
  (∀ s, s ∈ map fst data_urls →
     keeps Q (collect (join (join dd dataset) (s +:+ "_compressed")))) →
  (∀ s w src files w', s ∈ map fst data_urls →
     collect (join (join dd dataset) (s +:+ "_compressed")) w
     = (Ok (src, files), w') →
     join (join dd dataset) (s +:+ "_compressed") `prefix_of` src) →
  keeps Q (download_dataset E dataset convert collect dd data_urls).
Proof.
  intros Hplain HQ Hconv Hcoll Hsrc.
  assert (∀ q p, Q q → ¬ join (join dd dataset) p `prefix_of` q) as Hbelow.
  { intros q x Hq Hp. apply (HQ q Hq). by eapply prefix_app_l. }
  unfold download_dataset. apply keeps_bind; [apply keeps_os_makedirs|].
  intros _. generalize (@None (gmap string string)).
  assert (∀ x : string * string, x ∈ data_urls → x.1 ∈ map fst data_urls)
    as Hin.
  { intros x Hx. by apply list_elem_of_fmap_2. }
  revert Hin. generalize data_urls at 1 3. intros rest.
  induction rest as [|[s url] rest IH]; intros Hin truths;
    [apply keeps_ret|].
  assert (s ∈ map fst data_urls) as Hs by (apply (Hin (s, url)); left).
  simpl. apply keeps_bind;
    [|intros truths'; apply IH; intros x Hx; apply Hin; by right].
  unfold download_split.
  apply keeps_bind; [apply keeps_os_path_isfile|]. intros have_truths.
  apply keeps_bind; [apply keeps_os_path_isdir|]. intros have_images.
  destruct (_ && _).
  { apply keeps_bind; [apply keeps_emit | intros; apply keeps_ret]. }
  apply keeps_bind; [apply keeps_emit|]. intros _.
  apply keeps_bind.
  { apply keeps_retrieve_tarred_content; [done|]. intros q Hq.
    split; [by apply Hbelow|].
    intros sfx. rewrite add_suffix_join. by apply Hbelow. }
  intros _. apply keeps_bind.
  - apply keeps_truths_stage; [by apply Hconv|]. intros q Hq Hp.
    apply (Hbelow q s Hq). by eapply prefix_app_l.
  - intros truths'. apply keeps_bind; [|intros; apply keeps_ret].
    apply keeps_images_stage; [by apply Hcoll | by intros; eapply Hsrc |].
    intros q Hq. split; [by apply Hbelow|]. intros f Hp.
    apply (Hbelow q s Hq). unfold join in *. by do 2 eapply prefix_app_l.
Qed.

(** *** The converters and collectors of the two datasets *)

Lemma keeps_convert_voc_truths E Q dataset_directory :
  keeps Q (convert_voc_truths E dataset_directory).
Proof.
  unfold convert_voc_truths.
  apply keeps_bind; [apply keeps_os_path_isdir|]. intros is_dir.
  apply keeps_bind; [apply keeps_assert|]. intros _.
  apply keeps_bind; [apply keeps_glob|]. intros xml_files.
  apply keeps_fold_dict. intros file truths. unfold convert_voc_file.
  apply keeps_bind; [apply keeps_read_file|]. intros [bytes|?];
    [|apply keeps_raise].
  destruct (xml_fields E bytes) as [[[filename|] [object_name|]]|];
    (apply keeps_ret || apply keeps_raise).
Qed.

Lemma collect_images_src E images_directory filetype w src files w' :
  collect_images E images_directory filetype w = (Ok (src, files), w') →
  src = images_directory.
Proof.
  unfold collect_images. intros (image_files & w1 & _ & H)%bind_Ok.
  by injection H as <- _ _.
Qed.

Lemma glob_below E above directory filetype w tars w' :
  literal_pattern (above ++ directory) filetype = true →
  glob E above directory filetype w = (Ok tars, w') →
  Forall (λ tar, directory `prefix_of` tar) tars.
Proof.
  intros Hlit. unfold glob. rewrite bind_run. simpl. rewrite Hlit.
  intros [= <- _].
  destruct (lookup_path directory (fs w)) as [[?|entries]|]; try constructor.
  apply Forall_fmap, Forall_forall. intros name _. simpl. unfold join.
  by apply prefix_app_r.
Qed.

Lemma keeps_collect_imagenet2012_images E (Q : list string → Prop)
    dataset_directory :
  plain_archives E → literal_path dataset_directory = true →
  (∀ q, Q q → ¬ dataset_directory `prefix_of` q) →
  keeps Q (collect_imagenet2012_images E dataset_directory).
Proof.
  intros Hplain Hlit HQ. unfold collect_imagenet2012_images.
  apply keeps_bind; [|intros; apply keeps_collect_images].
  destruct (startswith _ _); [|apply keeps_ret].
  apply (keeps_bind_post Q
           (λ tars, Forall (λ tar, dataset_directory `prefix_of` tar) tars));
    [apply keeps_glob | |].
  { intros w tars w'. apply glob_below. unfold literal_pattern.
    cbn [app]. by rewrite Hlit. }
  intros tars Htars. apply keeps_bind; [apply keeps_assert|]. intros _.
  apply keeps_for_each. intros tar Htar. apply keeps_extract_tar; [done|].
  intros q Hq. split; [by apply HQ|]. intros Hp. apply (HQ q Hq).
  rewrite Forall_forall in Htars. etrans; [by apply Htars | done].
Qed.

Lemma collect_imagenet2012_images_src E dataset_directory w src files w' :
  collect_imagenet2012_images E dataset_directory w = (Ok (src, files), w') →
  src = dataset_directory.
Proof.
  unfold collect_imagenet2012_images. intros (_ & w1 & _ & H)%bind_Ok.
  by eapply collect_images_src.
Qed.

Lemma keeps_read_annotations E Q annotations_file :
  keeps Q (read_annotations E annotations_file).
Proof.
  unfold read_annotations.
  apply keeps_bind; [apply keeps_read_file|]. intros c.
  apply keeps_bind.
  - destruct c as [bytes|?]; [|apply keeps_raise]. simpl.
    destruct (decode E bytes); [apply keeps_ret | apply keeps_raise].
  - intros lines. apply keeps_fold_dict. intros line truths.
    unfold convert_imagenet2012_line.
    destruct (str_split SP line) as [|? [|? [|? ?]]];
      (apply keeps_ret || apply keeps_raise).
Qed.

Lemma keeps_convert_imagenet2012_truths E (Q : list string → Prop)
    dataset_directory data_type :
  plain_archives E →
  (∀ q, Q q →
     ¬ join (split dataset_directory).1 "annotations" `prefix_of` q
     ∧ ∀ sfx, ¬ add_suffix (join (split dataset_directory).1 "annotations") sfx
                `prefix_of` q) →
  keeps Q (convert_imagenet2012_truths E dataset_directory data_type).
Proof.
  intros Hplain HQ. unfold convert_imagenet2012_truths.
  apply keeps_bind; [apply keeps_assert|]. intros _.
  apply keeps_bind; [apply keeps_assert|]. intros _.
  apply keeps_bind; [by apply keeps_retrieve_tarred_content|]. intros _.
  apply keeps_read_annotations.
Qed.

(** *** Calls that leave the log alone *)

Lemma write_file_log p c w : log (write_file p c w).2 = log w.
Proof.
  unfold write_file. rewrite bind_run. simpl.
  repeat case_match; done.
Qed.

Lemma shutil_move_log src dst w : log (shutil_move src dst w).2 = log w.
Proof.
  unfold shutil_move. rewrite bind_run. simpl.
  repeat case_match; done.
Qed.

Lemma download_from_url_log (E : env) url local_path w :
  log (download_from_url E url local_path w).2
  = log w ++ [UrlRetrieve url (add_suffix local_path ".filepart")].
Proof.
  unfold download_from_url, urlretrieve. rewrite !bind_run. simpl.
  set (filepart_path := add_suffix local_path ".filepart").
  set (w0 := World (fs w) (log w ++ [UrlRetrieve url filepart_path])).
  destruct (http E url) as [|body content_length arrived|bytes]; simpl.
  - done.
  - rewrite bind_run.
    pose proof (write_file_log filepart_path
                  (Bytes (received body content_length arrived)) w0) as Hl.
    destruct (write_file _ _ _) as [[[]|e] w']; simpl in *; [|done].
    destruct (too_short _ _); simpl; [done | by rewrite shutil_move_log].
  - rewrite bind_run.
    pose proof (write_file_log filepart_path (Bytes bytes) w0) as Hl.
    by destruct (write_file _ _ _) as [[[]|e] w'].
Qed.

(** *** What the calls do to a path, case by case *)

Lemma path_cases (p : list string) : p = [] ∨ ∃ q c, p = join q c.
Proof. induction p using rev_ind; [by left | right; by eexists _, _]. Qed.

Lemma string_length_append (a b : string) :
  String.length (a +:+ b) = String.length a + String.length b.
Proof.
  induction a as [|x a IH]; [done|].
  change (S (String.length (a +:+ b)) = S (String.length a + String.length b)).
  by rewrite IH.
Qed.

Lemma append_nonempty_ne (c sfx : string) : sfx ≠ EmptyString → c +:+ sfx ≠ c.
Proof.
  intros Hne Heq. apply (f_equal String.length) in Heq.
  rewrite string_length_append in Heq. destruct sfx; [done|]. simpl in Heq. lia.
Qed.


Lemma write_file_cases p c w :
  (isdir p (fs w) = false ∧ isdir (removelast p) (fs w) = true ∧ p ≠ []
   ∧ write_file p c w
     = (Ok (), World (set_path p (Some (File c)) (fs w)) (log w)))
  ∨ ∃ e, write_file p c w = (Err e, w).
Proof.
  unfold write_file. rewrite bind_run. simpl.
  destruct (isdir p (fs w)) eqn:Hp; [right; by eexists|].
  destruct (isdir (removelast p) (fs w)) eqn:Hparent; [|right; by eexists].
  left. repeat split; try done. intros ->. simpl in Hparent. congruence.
Qed.

Lemma shutil_move_cases src dst w :
  (∃ e, shutil_move src dst w = (Err e, w))
  ∨ shutil_move src dst w = (Ok (), w)
  ∨ ∃ n, lookup_path src (fs w) = Some n
         ∧ isdir (removelast
                    (if isdir dst (fs w) then join dst (split src).2 else dst))
             (fs w) = true
         ∧ ¬ src `prefix_of`
               (if isdir dst (fs w) then join dst (split src).2 else dst)
         ∧ shutil_move src dst w
           = (Ok (), World
                (set_path
                   (if isdir dst (fs w) then join dst (split src).2 else dst)
                   (Some n) (set_path src None (fs w)))
                (log w)).
Proof.
  unfold shutil_move. rewrite bind_run. simpl.
  set (real_dst := if isdir dst (fs w) then join dst (List.last src "") else dst).
  destruct (isdir dst (fs w) && exists_ real_dst (fs w)); [left; by eexists|].
  destruct (lookup_path src (fs w)) as [n|]; [|left; by eexists].
  case_bool_decide; [right; left; by destruct w|].
  case_bool_decide; [left; by eexists|].
  destruct (isdir (removelast real_dst) (fs w)) eqn:Hparent; simpl;
    [|left; by eexists].
  destruct (isdir src (fs w) && exists_ real_dst (fs w)); [left; by eexists|].
  right. right. by exists n.
Qed.

Lemma stat_lookup_file p c n : lookup_path p n = Some (File c) → stat p n = IsFile c.
Proof. unfold stat. by intros ->. Qed.

Lemma isdir_of_stat q n :
  isdir q n = match stat q n with IsDir => true | _ => false end.
Proof. unfold isdir, stat. by destruct (lookup_path q n) as [[]|]. Qed.

Lemma isfile_of_stat q n :
  isfile q n = match stat q n with IsFile _ => true | _ => false end.
Proof. unfold isfile, stat. by destruct (lookup_path q n) as [[]|]. Qed.

Lemma exists_of_stat q n :
  exists_ q n = match stat q n with Absent => false | _ => true end.
Proof. unfold exists_, stat. by destruct (lookup_path q n) as [[]|]. Qed.

Lemma stat_set_path_None p n :
  p ≠ [] → isdir (removelast p) n = true → stat p (set_path p None n) = Absent.
Proof. intros. unfold stat. by rewrite lookup_set_path. Qed.

(** The temporary file of a path lies beside it. *)
Lemma filepart_beside q c sfx r :
  sfx ≠ EmptyString →
  ¬ add_suffix (join q c) sfx `prefix_of` join q c
  ∧ ¬ add_suffix (join q c) sfx `prefix_of` q
  ∧ ¬ join q c `prefix_of` add_suffix (join q c) sfx
  ∧ removelast (add_suffix (join q c) sfx) = q
  ∧ add_suffix (join q c) sfx ≠ []
  ∧ ¬ join (join q c) r `prefix_of` add_suffix (join q c) sfx.
Proof.
  intros Hne. rewrite add_suffix_join. repeat split.
  - unfold join at 2. intros H%(prefix_join_cons q _ c []).
    by apply append_nonempty_ne in H.
  - apply prefix_snoc_not.
  - unfold join at 2. intros H%(prefix_join_cons q _ _ []).
    symmetry in H. by apply append_nonempty_ne in H.
  - apply removelast_join.
  - unfold join. by destruct q.
  - intros H%prefix_length. unfold join in H. rewrite !length_app in H.
    simpl in H. lia.
Qed.

Lemma write_file_run p c w :
  isdir p (fs w) = false → isdir (removelast p) (fs w) = true →
  write_file p c w = (Ok (), World (set_path p (Some (File c)) (fs w)) (log w)).
Proof.
  intros Hp Hparent. unfold write_file. rewrite bind_run. simpl.
  by rewrite Hp, Hparent.
Qed.

(** The rename of a regular file onto a free path in a directory. *)
Lemma shutil_move_file src dst c w :
  lookup_path src (fs w) = Some (File c) →
  stat dst (fs w) = Absent →
  isdir (removelast dst) (fs w) = true →
  shutil_move src dst w
  = (Ok (), World (set_path dst (Some (File c)) (set_path src None (fs w)))
              (log w)).
Proof.
  intros Hsrc Hdst Hparent. unfold shutil_move. rewrite bind_run. simpl.
  rewrite (isdir_of_stat dst), Hdst. simpl. rewrite Hsrc, Hparent. simpl.
  rewrite (isdir_of_stat src), (stat_lookup_file _ _ _ Hsrc). simpl.
  assert (¬ src `prefix_of` dst) as Hpre.
  { intros [r ->]. destruct r as [|x r].
    - rewrite app_nil_r in Hdst. by rewrite (stat_lookup_file _ _ _ Hsrc) in Hdst.
    - apply isdir_stat in Hparent.
      assert (stat src (fs w) = IsDir) as Hd;
        [|by rewrite (stat_lookup_file _ _ _ Hsrc) in Hd].
      destruct (path_cases (x :: r)) as [?|(r' & y & Hr)]; [done|].
      rewrite Hr in Hparent. unfold join in Hparent.
      rewrite app_assoc, removelast_last in Hparent.
      destruct r' as [|z r'].
      + by rewrite app_nil_r in Hparent.
      + apply (stat_above src (z :: r')); [done | by rewrite Hparent]. }
  rewrite bool_decide_eq_false_2; [|by intros ->].
  by rewrite bool_decide_eq_false_2.
Qed.

(** What [urlretrieve] does at each answer. *)
Lemma urlretrieve_run E url filename w :
  urlretrieve E url filename w
  = let w0 := World (fs w) (log w ++ [UrlRetrieve url filename]) in
    match http E url with
    | Unreachable => (Err (URLError url), w0)
    | Answer body content_length arrived =>
        match write_file filename (Bytes (received body content_length arrived)) w0 with
        | (Ok _, w1) =>
            (if too_short content_length
                  (String.length (received body content_length arrived))
             then Err (ContentTooShortError url) else Ok (), w1)
        | (Err e, w1) => (Err e, w1)
        end
    | Reset bytes =>
        match write_file filename (Bytes bytes) w0 with
        | (Ok _, w1) => (Err (OSError url), w1)
        | (Err e, w1) => (Err e, w1)
        end
    end.
Proof.
  unfold urlretrieve. rewrite bind_run. cbn [emit].
  destruct (http E url) as [|body content_length arrived|bytes]; [done| |].
  - rewrite bind_run. destruct (write_file _ _ _) as [[[]|e] w1]; [|done].
    by destruct (too_short _ _).
  - rewrite bind_run. by destruct (write_file _ _ _) as [[[]|e] w1].
Qed.

(** A transfer that is not short of the announced length, to a path that
    is free in a directory that exists. *)
Lemma download_from_url_whole E url local_path w body content_length arrived :
  http E url = Answer body content_length arrived →
  too_short content_length
    (String.length (received body content_length arrived)) = false →
  stat local_path (fs w) = Absent →
  isdir (removelast local_path) (fs w) = true →
  isdir (add_suffix local_path ".filepart") (fs w) = false →
  ∃ root,
    download_from_url E url local_path w
    = (Ok (), World root
                (log w ++ [UrlRetrieve url (add_suffix local_path ".filepart")]))
    ∧ stat local_path root = IsFile (Bytes (received body content_length arrived))
    ∧ stat (add_suffix local_path ".filepart") root = Absent.
Proof.
  intros Hhttp Hlong Habsent Hparent Hfp.
  destruct (path_cases local_path) as [->|(q & c & ->)]; [by destruct (fs w)|].
  rewrite removelast_join in Hparent.
  destruct (filepart_beside q c ".filepart" c) as (H1 & H2 & H3 & H4 & H5 & _);
    [done|].
  set (fp := add_suffix (join q c) ".filepart") in *.
  set (bytes := received body content_length arrived) in *.
  set (root1 := set_path fp (Some (File (Bytes bytes))) (fs w)).
  set (root2 := set_path fp None root1).
  exists (set_path (join q c) (Some (File (Bytes bytes))) root2).
  assert (isdir q root1 = true) as Hq1.
  { rewrite isdir_of_stat. unfold root1. rewrite stat_set_path by done.
    by rewrite <- isdir_of_stat. }
  assert (isdir q root2 = true) as Hq2.
  { rewrite isdir_of_stat. unfold root2. rewrite stat_set_path by done.
    by rewrite <- isdir_of_stat. }
  assert (lookup_path fp root1 = Some (File (Bytes bytes))) as Hfp1.
  { unfold root1. apply lookup_set_path; [done | by rewrite H4]. }
  assert (stat (join q c) root1 = Absent) as Hp1.
  { unfold root1. by rewrite stat_set_path. }
  split; [|split].
  - unfold download_from_url. fold fp. rewrite bind_run, urlretrieve_run.
    rewrite Hhttp. cbv zeta. fold bytes.
    rewrite write_file_run; [|done|by rewrite H4]. rewrite Hlong.
    cbn [fs log]. fold root1.
    erewrite shutil_move_file; [done | exact Hfp1 | exact Hp1 |].
    by rewrite removelast_join.
  - apply stat_set_path_file; [unfold join; by destruct q|].
    by rewrite removelast_join.
  - rewrite stat_set_path by done. unfold root2.
    apply stat_set_path_None; [done | by rewrite H4].
Qed.

End download_facts.


Section text_facts.
Import DownloadData Examples.

Lemma append_String a s t : String a s +:+ t = String a (s +:+ t).
Proof. reflexivity. Qed.

Lemma append_empty t : EmptyString +:+ t = t.
Proof. reflexivity. Qed.



Lemma str_split_none sep s : has sep s = false → str_split sep s = [s].
Proof.
  induction s as [|a s IH]; [done|]. simpl. intros [Ha Hs]%orb_false_elim.
  rewrite Ha. by rewrite IH.
Qed.

Lemma str_split_one sep s t :
  has sep s = false → has sep t = false →
  str_split sep (s +:+ String sep t) = [s; t].
Proof.
  intros Hs Ht. induction s as [|a s IH].
  - rewrite append_empty. simpl. rewrite Ascii.eqb_refl.
    by rewrite str_split_none.
  - simpl in Hs. apply orb_false_elim in Hs as [Ha Hs].
    rewrite append_String. simpl. rewrite Ha. by rewrite IH.
Qed.





End text_facts.




(** * Running the orchestrator again *)

Section rerun_facts.
Import DownloadData.


(** The callbacks of ILSVRC2012 are as the orchestrator needs them, when no
    split name begins with [annotations]. *)
Lemma imagenet_callbacks_keep E dd splits s :
  plain_archives E →
  literal_path dd = true → has_magic s = false →
  staging_apart splits = true →
  (∀ t, t ∈ splits → String.prefix "annotations" t = false) →
  s ∈ splits →
  keeps (outputs (join dd "ILSVRC2012") splits)
    (convert_imagenet2012_truths E
       (join (join dd "ILSVRC2012") (s +:+ "_compressed")) s)
  ∧ keeps (outputs (join dd "ILSVRC2012") splits)
      (collect_imagenet2012_images E
         (join (join dd "ILSVRC2012") (s +:+ "_compressed"))).
Proof.
  intros Hplain Hdd Hmagic Hnames Hann Hs. split.
  - apply keeps_convert_imagenet2012_truths; [done|]. intros q Hq.
    unfold split. simpl. rewrite removelast_join.
    by apply (output_not_under _ splits).
  - apply keeps_collect_imagenet2012_images; [done| |].
    + rewrite !literal_path_join, Hdd, has_magic_append, Hmagic. done.
    + intros q Hq. by eapply staging_not_output.
Qed.

(** X2. The acquisition of VOC2012 is idempotent: when it has returned,
    acquiring it again, whatever the network then answers, prints that the
    splits [train] and [val] are skipped and does nothing else.  This holds
    for archives of regular files and directories under plain relative
    names, and a datasets directory of plain names below a run directory
    whose path has no wildcard. *)
Theorem download_voc2012_idempotent E E' dd w w1 :
  plain_archives E →
  literal_path (cwd E) = true →
  forallb plain_name dd = true →
  download_voc2012 E dd w = (Ok (), w1) →
  download_voc2012 E' dd w1
  = (Ok (), World (fs w1)
              (log w1 ++ [Print (MsgSkipping "VOC2012" "train");
                          Print (MsgSkipping "VOC2012" "val")])).
Proof.
  intros Hplain _ _. unfold download_voc2012.
  apply (download_dataset_rerun_aux E E' "VOC2012" _ _ _ _ dd
           [("train", voc_url); ("val", voc_url)]).
  - done.
  - reflexivity.
  - intros s _. apply keeps_convert_voc_truths.
  - intros s _. apply keeps_collect_images.
  - intros s w0 src files w' _ ->%collect_images_src.
    unfold join. by do 3 apply prefix_app_r.
Qed.

End rerun_facts.

(** * What the datasets part of the script touches *)

Section confinement.
Import DownloadData.

Lemma keeps_run {A} (Q : list string → Prop) (m : M A) w a w' q :
  keeps Q m → Q q → m w = (a, w') → preserved q (fs w) (fs w').
Proof. intros Hk Hq Hrun. specialize (Hk w q Hq). by rewrite Hrun in Hk. Qed.

Lemma preserved_file q root root' c :
  preserved q root root' → stat q root = IsFile c → stat q root' = IsFile c.
Proof. intros Hp Hs. rewrite Hp; rewrite Hs; done. Qed.

Lemma keeps_download_imagenet E dd urls (Q : list string → Prop) :
  plain_archives E → literal_path dd = true →
  forallb plain_name (map fst urls) = true →
  (∀ q, Q q → ¬ join dd "ILSVRC2012" `prefix_of` q) →
  keeps Q (download_dataset E "ILSVRC2012" (convert_imagenet2012_truths E)
             (collect_imagenet2012_images E) dd urls).
Proof.
  intros Hplain Hdd Hurls HQ.
  assert (∀ q p, Q q → ¬ join (join dd "ILSVRC2012") p `prefix_of` q) as Hbelow.
  { intros q x Hq Hp. apply (HQ q Hq). by eapply prefix_app_l. }
  rewrite forallb_forall in Hurls.
  apply keeps_download_dataset; [done|done| | |].
  - intros s dt _. apply keeps_convert_imagenet2012_truths; [done|].
    intros q Hq. unfold split. cbn [fst]. rewrite removelast_join.
    split; [by apply Hbelow|]. intros sfx. rewrite add_suffix_join.
    by apply Hbelow.
  - intros s Hs. apply keeps_collect_imagenet2012_images; [done| |].
    + rewrite !literal_path_join, Hdd, has_magic_append.
      rewrite (plain_name_literal s); [done|]. by apply Hurls, list_elem_of_In.
    + intros q Hq. by apply Hbelow.
  - intros s w src files w' _ Hrun.
    apply collect_imagenet2012_images_src in Hrun. by subst src.
Qed.

Lemma keeps_download_voc2012 E dd (Q : list string → Prop) :
  plain_archives E →
  (∀ q, Q q → ¬ join dd "VOC2012" `prefix_of` q) →
  keeps Q (download_voc2012 E dd).
Proof.
  intros Hplain HQ. unfold download_voc2012.
  apply keeps_download_dataset; [done|done| | |].
  - intros s dt _. apply keeps_convert_voc_truths.
  - intros s _. apply keeps_collect_images.
  - intros s w src files w' _ ->%collect_images_src.
    unfold join. by do 3 apply prefix_app_r.
Qed.


(** Loading the file of the image URLs, when it is as [pickle.dump] left
    it: the dictionary, or the exception of [open]. *)
Lemma pickle_load_dumped dd w :
  urls_dumped dd (fs w) →
  (∃ e, ∀ E, pickle_load E (join dd "ILSVRC2012_image_urls.p") w = (Err e, w))
  ∨ ∃ items,
      forallb plain_name (map fst items) = true
      ∧ ∀ E, pickle_load E (join dd "ILSVRC2012_image_urls.p") w
             = (Ok (PyDict items), w).
Proof.
  unfold urls_dumped, pickle_load, read_file. intros Hfile.
  destruct (lookup_path _ (fs w)) as [[[bytes|items]|entries]|] eqn:Hlook.
  - done.
  - right. exists items. split; [done|]. intros E.
    rewrite !bind_run. cbn [get_fs fst snd]. by rewrite Hlook.
  - left. eexists. intros E. rewrite !bind_run. cbn [get_fs fst snd].
    by rewrite Hlook.
  - left. eexists. intros E. rewrite !bind_run. cbn [get_fs fst snd].
    by rewrite Hlook.
Qed.

(** X16. The datasets part of the script changes nothing outside the
    directories of its two datasets: whatever exists at a path that is not
    at or below [<datasets_directory>/ILSVRC2012] or
    [<datasets_directory>/VOC2012] is still there, unchanged, when the
    script stops, whether it returns or raises.  This holds for archives of
    regular files and directories under plain relative names, a datasets
    directory of plain names below a run directory whose path has no
    wildcard, and a file of image URLs that, if there is one, is the dump
    of a dictionary whose keys are plain names. *)
Theorem main_datasets_confined E dd w q :
  plain_archives E →
  literal_path (cwd E) = true →
  forallb plain_name dd = true →
  urls_dumped dd (fs w) →
  ¬ join dd "ILSVRC2012" `prefix_of` q →
  ¬ join dd "VOC2012" `prefix_of` q →
  preserved q (fs w) (fs (main_datasets E dd w).2).
Proof.
  intros Hplain _ Hdd Hfile H1 H2. apply plain_names_literal in Hdd.
  unfold main_datasets. rewrite bind_run.
  destruct (pickle_load_dumped dd w Hfile) as [[e He]|(items & Hitems & Hload)].
  { rewrite He. apply preserved_refl. }
  rewrite Hload.
  apply (keeps_bind (λ q', q' = q)
           (if bool_decide (items = []) then print MsgImageUrlsMustNotBeDistributed
            else download_dataset E "ILSVRC2012" (convert_imagenet2012_truths E)
                   (collect_imagenet2012_images E) dd items)
           (λ _, download_voc2012 E dd)); [| |done].
  - case_bool_decide; [apply keeps_emit|].
    apply keeps_download_imagenet; try done. by intros q' ->.
  - intros _. apply keeps_download_voc2012; [done|]. by intros q' ->.
Qed.

(** X17. The datasets part of the script is idempotent.  When it has
    returned, for image URLs whose split names are plain names that do not
    begin with another split name followed by [_compressed], nor with
    [annotations], a second run, whatever the network then answers, only
    prints its notice or that it skips every split: it transfers and
    extracts nothing and leaves the file system as it is.  This holds for
    archives of regular files and directories under plain relative names
    and a datasets directory of plain names below a run directory whose
    path has no wildcard. *)
Theorem main_datasets_idempotent E E' dd w w1 urls :
  plain_archives E →
  literal_path (cwd E) = true →
  forallb plain_name dd = true →
  lookup_path (join dd "ILSVRC2012_image_urls.p") (fs w)
  = Some (File (Pickle urls)) →
  forallb plain_name (map fst urls) = true →
  staging_apart (map fst urls) = true →
  (∀ t, t ∈ map fst urls → String.prefix "annotations" t = false) →
  main_datasets E dd w = (Ok (), w1) →
  main_datasets E' dd w1
  = (Ok (), World (fs w1)
              (log w1
               ++ (if bool_decide (urls = [])
                   then [Print MsgImageUrlsMustNotBeDistributed]
                   else map (λ x, Print (MsgSkipping "ILSVRC2012" x.1)) urls)
               ++ [Print (MsgSkipping "VOC2012" "train");
                   Print (MsgSkipping "VOC2012" "val")])).
Proof.
  intros Hplain _ Hdd Hfile Hplain_urls Hnames Hann Hrun.
  apply plain_names_literal in Hdd.
  set (urls_file := join dd "ILSVRC2012_image_urls.p") in *.
  assert (∀ name, name ≠ "ILSVRC2012_image_urls.p" →
            ¬ join dd name `prefix_of` urls_file) as Hbeside.
  { intros name Hne Hp. unfold urls_file, join in Hp.
    apply prefix_app_inv in Hp. destruct Hp as [k Hk]. by injection Hk. }
  assert (∀ E0 w0, lookup_path urls_file (fs w0) = Some (File (Pickle urls)) →
            pickle_load E0 urls_file w0 = (Ok (PyDict urls), w0)) as Hload.
  { intros E0 w0 H0. unfold pickle_load, read_file.
    rewrite !bind_run. cbn [get_fs fst snd]. by rewrite H0. }
  assert (∀ w0 : world, stat urls_file (fs w0) = IsFile (Pickle urls) →
            lookup_path urls_file (fs w0) = Some (File (Pickle urls))) as Hback.
  { intros w0. unfold stat.
    destruct (lookup_path urls_file (fs w0)) as [[c|?]|]; congruence. }
  (* the first run *)
  unfold main_datasets in Hrun. fold urls_file in Hrun.
  rewrite bind_run, (Hload E w Hfile) in Hrun.
  apply bind_Ok in Hrun as ([] & wa & Himagenet & Hvoc).
  (* the file of the URLs is still there *)
  assert (stat urls_file (fs wa) = IsFile (Pickle urls)) as Hfile_a.
  { case_bool_decide.
    - rewrite print_run in Himagenet. injection Himagenet as <-.
      by apply stat_lookup_file.
    - eapply preserved_file; [|by apply stat_lookup_file].
      eapply (keeps_run (λ q, q = urls_file)); [|done|exact Himagenet].
      apply keeps_download_imagenet; try done. intros q ->. by apply Hbeside. }
  assert (stat urls_file (fs w1) = IsFile (Pickle urls)) as Hfile_1.
  { eapply preserved_file; [|exact Hfile_a].
    eapply (keeps_run (λ q, q = urls_file)); [|done|exact Hvoc].
    apply keeps_download_voc2012; [done|]. intros q ->. by apply Hbeside. }
  (* VOC2012 is ready *)
  assert (Forall (λ x : string * string,
                    ready (join dd "VOC2012") x.1 (fs w1))
            [("train", voc_url); ("val", voc_url)]
          ∧ isdir (join dd "VOC2012") (fs w1) = true) as [Hvoc_ready Hvoc_dir].
  { unfold download_voc2012 in Hvoc.
    eapply download_dataset_Ok_ready; [exact Hplain| | | | |exact Hvoc].
    - reflexivity.
    - intros s _. apply keeps_convert_voc_truths.
    - intros s _. apply keeps_collect_images.
    - intros s w0 src files w' _ ->%collect_images_src.
      unfold join. by do 3 apply prefix_app_r. }
  (* the second run *)
  unfold main_datasets. fold urls_file.
  rewrite bind_run, (Hload E' w1 (Hback w1 Hfile_1)).
  case_bool_decide as Hempty.
  - rewrite bind_run, print_run.
    unfold download_voc2012. rewrite download_dataset_skip by done.
    cbn [fs log map fst]. by rewrite <- app_assoc.
  - (* ILSVRC2012 was made ready, and VOC2012 left it so *)
    assert (∀ s, s ∈ map fst urls → has_magic s = false) as Hmagic.
    { intros s Hs. apply plain_name_literal.
      rewrite forallb_forall in Hplain_urls.
      by apply Hplain_urls, list_elem_of_In. }
    destruct (download_dataset_Ok_ready E "ILSVRC2012"
                (convert_imagenet2012_truths E) (collect_imagenet2012_images E)
                dd urls w wa Hplain Hnames) as [Hready_a Hdir_a]; [| | |done|].
    { intros s Hs. apply imagenet_callbacks_keep; auto. }
    { intros s Hs. apply imagenet_callbacks_keep; auto. }
    { intros s w0 src files w' _ Hc.
      apply collect_imagenet2012_images_src in Hc. by subst src. }
    assert (∀ q, ¬ join dd "VOC2012" `prefix_of` q →
              preserved q (fs wa) (fs w1)) as Hkept.
    { intros q Hq.
      eapply (keeps_run (λ q', q' = q)); [|done|exact Hvoc].
      apply keeps_download_voc2012; [done|]. by intros q' ->. }
    assert (∀ r, ¬ join dd "VOC2012" `prefix_of` join dd "ILSVRC2012" ++ r)
      as Hother.
    { intros r Hp. unfold join in Hp. rewrite <- app_assoc in Hp.
      apply prefix_app_inv in Hp. destruct Hp as [k Hk]. by injection Hk. }
    rewrite bind_run, download_dataset_skip.
    + unfold download_voc2012. rewrite download_dataset_skip by done.
      cbn [fs log map fst]. by rewrite <- !app_assoc.
    + eapply Forall_impl; [exact Hready_a|]. intros [t url] [Hf Hd].
      split.
      * eapply preserved_isfile; [exact Hf|]. apply Hkept. cbn [fst].
        replace (truths_path (join dd "ILSVRC2012") t)
          with (join dd "ILSVRC2012" ++ [t; "ground_truths.p"])
          by (unfold truths_path, join; by rewrite <- !app_assoc).
        apply Hother.
      * eapply preserved_isdir; [exact Hd|]. apply Hkept. cbn [fst].
        replace (images_path (join dd "ILSVRC2012") t)
          with (join dd "ILSVRC2012" ++ [t; "images"])
          by (unfold images_path, join; by rewrite <- !app_assoc).
        apply Hother.
    + eapply preserved_isdir; [exact Hdir_a|]. apply Hkept.
      rewrite <- (app_nil_r (join dd "ILSVRC2012")). apply Hother.
Qed.

End confinement.

(** The archives of the examples hold regular files and directories under
    plain names. *)
Lemma demo_archives_plain answer :
  DownloadData.plain_archives (Examples.demo_env answer).
Proof.
  intros gz bytes members complete. cbn [DownloadData.untar Examples.demo_env].
  unfold Examples.demo_untar.
  repeat case_match; intros [= <- _]; reflexivity.
Qed.



Lemma download_voc2012_idempotent_witness :
  let first := DownloadData.download_voc2012 Examples.host_up ["datasets"]
                 Examples.world_fresh in
  DownloadData.download_voc2012 Examples.host_down ["datasets"] first.2
  = (Ok (), DownloadData.World (DownloadData.fs first.2)
              (DownloadData.log first.2
               ++ [DownloadData.Print (DownloadData.MsgSkipping "VOC2012" "train");
                   DownloadData.Print (DownloadData.MsgSkipping "VOC2012" "val")])).
Proof.
  intros first.
  apply (download_voc2012_idempotent Examples.host_up Examples.host_down
           ["datasets"] Examples.world_fresh first.2).
  - apply demo_archives_plain.
  - reflexivity.
  - reflexivity.
  - vm_compute. reflexivity.
Defined.

(** * The download primitive *)

Section publish_facts.
Import DownloadData.






(** X6. [__download_if_needed] with the download primitive: when the local
    path is a regular file it prints that the file exists, returns [False]
    and touches nothing; otherwise it prints, makes exactly one transfer,
    to the temporary name, and returns [True] unless the retrieval
    raises. *)
Theorem download_if_needed_url (E : env) url local_path w :
  let r := download_if_needed local_path (download_from_url E url) w in
  if isfile local_path (fs w) then
    r = (Ok false, World (fs w) (log w ++ [Print (MsgExistsAlready local_path)]))
  else
    log r.2 = log w ++ [Print (MsgRetrieving local_path);
                        UrlRetrieve url (add_suffix local_path ".filepart")]
    ∧ (r.1 = Ok true ∨ ∃ e, r.1 = Err e).
Proof.
  unfold download_if_needed. rewrite bind_run, os_path_isfile_run.
  destruct (isfile local_path (fs w)); simpl.
  - by rewrite bind_run, print_run.
  - rewrite !bind_run, print_run.
    pose proof (download_from_url_log E url local_path
                  (World (fs w) (log w ++ [Print (MsgRetrieving local_path)])))
      as Hlog.
    destruct (download_from_url _ _ _ _) as [[[]|e] w1]; simpl in *.
    + split; [by rewrite Hlog, <- app_assoc | by left].
    + split; [by rewrite Hlog, <- app_assoc | right; by eexists].
Qed.

(** X7. A transfer that breaks off, then a retry.  With the final path
    free in an existing directory: a transfer of which fewer bytes arrive
    than the host announced leaves what arrived in the temporary file and
    the final path absent; the next [__download_if_needed] downloads
    again, over the temporary file, and when that transfer is not short of
    what is announced the final path holds all that arrived of it and the
    temporary file is gone. *)
Theorem retry_after_interruption (E1 E2 : env) url local_path w
    body1 content_length1 arrived1 body content_length arrived :
  http E1 url = Answer body1 content_length1 arrived1 →
  too_short content_length1
    (String.length (received body1 content_length1 arrived1)) = true →
  http E2 url = Answer body content_length arrived →
  too_short content_length
    (String.length (received body content_length arrived)) = false →
  stat local_path (fs w) = Absent →
  isdir (removelast local_path) (fs w) = true →
  isdir (add_suffix local_path ".filepart") (fs w) = false →
  let w1 := (download_if_needed local_path (download_from_url E1 url) w).2 in
  let r2 := download_if_needed local_path (download_from_url E2 url) w1 in
  stat local_path (fs w1) = Absent
  ∧ stat (add_suffix local_path ".filepart") (fs w1)
    = IsFile (Bytes (received body1 content_length1 arrived1))
  ∧ r2.1 = Ok true
  ∧ stat local_path (fs r2.2) = IsFile (Bytes (received body content_length arrived))
  ∧ stat (add_suffix local_path ".filepart") (fs r2.2) = Absent.
Proof.
  intros H1 Hshort H2 Hlong Habsent Hparent Hfp.
  destruct (path_cases local_path) as [->|(q & c & ->)]; [by destruct (fs w)|].
  destruct (filepart_beside q c ".filepart" c) as (B1 & B2 & B3 & B4 & B5 & _);
    [done|].
  set (fp := add_suffix (join q c) ".filepart") in *.
  set (data1 := received body1 content_length1 arrived1) in *.
  rewrite removelast_join in Hparent.
  assert (isfile (join q c) (fs w) = false) as Hnofile.
  { by rewrite isfile_of_stat, Habsent. }
  assert ((download_if_needed (join q c) (download_from_url E1 url) w).2
          = World (set_path fp (Some (File (Bytes data1))) (fs w))
              (log w ++ [Print (MsgRetrieving (join q c)); UrlRetrieve url fp]))
    as Hw1.
  { unfold download_if_needed. rewrite bind_run, os_path_isfile_run, Hnofile.
    simpl. rewrite !bind_run, print_run.
    unfold download_from_url. fold fp.
    rewrite bind_run, urlretrieve_run, H1. cbv zeta. fold data1.
    rewrite write_file_run; [|done|by rewrite B4]. rewrite Hshort.
    cbn [fs log snd]. by rewrite <- app_assoc. }
  intros w1 r2. unfold r2, w1. rewrite Hw1. clear w1 r2 Hw1.
  set (root1 := set_path fp (Some (File (Bytes data1))) (fs w)).
  set (log1 := log w ++ [Print (MsgRetrieving (join q c)); UrlRetrieve url fp]).
  assert (stat (join q c) root1 = Absent) as Hp1.
  { unfold root1. by rewrite stat_set_path. }
  assert (stat fp root1 = IsFile (Bytes data1)) as Hfp1.
  { apply stat_set_path_file; [done | by rewrite B4]. }
  split; [done|]. split; [done|].
  destruct (download_from_url_whole E2 url (join q c)
              (World root1 (log1 ++ [Print (MsgRetrieving (join q c))]))
              body content_length arrived)
    as (root & Hrun & Hfinal & Htemp); try done.
  { cbn [fs]. rewrite removelast_join, isdir_of_stat. unfold root1.
    rewrite stat_set_path by done. by rewrite <- isdir_of_stat. }
  { cbn [fs]. fold fp. by rewrite isdir_of_stat, Hfp1. }
  unfold download_if_needed. rewrite bind_run, os_path_isfile_run.
  cbn [fs log]. rewrite isfile_of_stat, Hp1. cbn [negb].
  rewrite !bind_run, print_run. cbn [fs log]. rewrite Hrun. done.
Qed.

End publish_facts.



Lemma retry_after_interruption_witness :
  let url := "http://files.heuritech.com/weights/alexnet_weights.h5" in
  let local_path := ["weights"; "alexnet.h5"] in
  let w1 := (DownloadData.download_if_needed local_path
               (DownloadData.download_from_url Examples.host_breaks url)
               Examples.world_weights).2 in
  let r2 := DownloadData.download_if_needed local_path
              (DownloadData.download_from_url Examples.host_up url) w1 in
  DownloadData.stat local_path (DownloadData.fs w1) = DownloadData.Absent
  ∧ DownloadData.stat (DownloadData.add_suffix local_path ".filepart")
      (DownloadData.fs w1)
    = DownloadData.IsFile (DownloadData.Bytes "ima")
  ∧ r2.1 = Ok true
  ∧ DownloadData.stat local_path (DownloadData.fs r2.2)
    = DownloadData.IsFile (DownloadData.Bytes "images")
  ∧ DownloadData.stat (DownloadData.add_suffix local_path ".filepart")
      (DownloadData.fs r2.2)
    = DownloadData.Absent.
Proof.
  apply (retry_after_interruption Examples.host_breaks Examples.host_up
           "http://files.heuritech.com/weights/alexnet_weights.h5"
           ["weights"; "alexnet.h5"] Examples.world_weights
           "images" (Some 6) 3 "images" (Some 6) 6);
    reflexivity.
Defined.

(** * The stages of the orchestrator *)

Section stage_facts.
Import DownloadData.

Lemma difference_empty_eq (X Y : gset string) : X ∖ Y = ∅ → Y ∖ X = ∅ → X = Y.
Proof.
  intros H1 H2. apply set_eq. intros x. split; intros Hx.
  - destruct (decide (x ∈ Y)); [done|].
    assert (x ∈ X ∖ Y) as Hd by set_solver. rewrite H1 in Hd. set_solver.
  - destruct (decide (x ∈ X)); [done|].
    assert (x ∈ Y ∖ X) as Hd by set_solver. rewrite H2 in Hd. set_solver.
Qed.


(** X9. Resuming a split whose ground truths were converted by an earlier
    run.  In the first round of the loop, for a split whose ground-truths
    file exists, whose images directory does not and whose staging
    directory is still there, the round skips the retrieval and the truths,
    collects the images and, when there are some, fails on the variable
    [truths], which only the conversion binds. *)
Theorem download_split_resume_unbound E dataset convert collect dd s url w
    src files w1 :
  let ds := join dd dataset in
  let staging := join ds (s +:+ "_compressed") in
  isfile (truths_path ds s) (fs w) = true →
  isdir (images_path ds s) (fs w) = false →
  exists_ staging (fs w) = true →
  endswith url ".tar.gz" || endswith url ".tar" = true →
  collect staging
    (World (fs w)
       (log w ++ [Print (MsgRetrievingSplit dataset s);
                  Print (MsgLocalPathExists url staging);
                  Print (MsgSkippingTruths dataset s (truths_path ds s));
                  Print (MsgCollectingImages dataset s)]))
  = (Ok (src, files), w1) →
  files ≠ [] →
  download_split E dataset convert collect dd None s url w
  = (Err (UnboundLocalError "truths"), w1).
Proof.
  intros ds staging Hfile Hdir Hstaging Hurl Hcoll Hfiles.
  unfold download_split. fold ds. fold (truths_path ds s) (images_path ds s).
  rewrite bind_run, os_path_isfile_run, bind_run, os_path_isdir_run.
  rewrite Hfile, Hdir. cbn [andb].
  rewrite bind_run, print_run. fold staging.
  assert (retrieve_tarred_content E url staging
            (World (fs w) (log w ++ [Print (MsgRetrievingSplit dataset s)]))
          = (Ok (), World (fs w)
                      ((log w ++ [Print (MsgRetrievingSplit dataset s)])
                       ++ [Print (MsgLocalPathExists url staging)]))) as Hret.
  { unfold retrieve_tarred_content. rewrite bind_run, Hurl.
    cbn [assert mret M_ret]. rewrite bind_run, os_path_exists_run.
    cbn [fs]. by rewrite Hstaging, print_run. }
  rewrite bind_run, Hret. clear Hret.
  assert (∀ l, truths_stage dataset convert s staging (join ds s)
                 (truths_path ds s) None (World (fs w) l)
               = (Ok None,
                  World (fs w)
                    (l ++ [Print (MsgSkippingTruths dataset s (truths_path ds s))])))
    as Htruths.
  { intros l. unfold truths_stage. rewrite bind_run, os_path_isfile_run.
    cbn [fs]. rewrite Hfile. by rewrite bind_run, print_run. }
  rewrite bind_run, Htruths. clear Htruths.
  rewrite bind_run. unfold images_stage.
  rewrite bind_run, os_path_isdir_run. cbn [fs]. rewrite Hdir.
  rewrite bind_run, print_run. cbn [fs log].
  rewrite <- !app_assoc. cbn [app].
  rewrite bind_run, Hcoll. cbn [fst snd]. rewrite bind_run.
  by rewrite bool_decide_eq_false_2 by done.
Qed.

(** X10. Without the file of the ILSVRC2012 image URLs the datasets part
    of the script raises at once: nothing is printed, and VOC2012 is not
    attempted either. *)
Theorem main_datasets_no_urls_file E dd w :
  stat (join dd "ILSVRC2012_image_urls.p") (fs w) = Absent →
  main_datasets E dd w
  = (Err (missing (join dd "ILSVRC2012_image_urls.p") (fs w)), w).
Proof.
  intros Habsent. unfold main_datasets, pickle_load, read_file.
  rewrite !bind_run. cbn [get_fs fst snd].
  unfold stat in Habsent.
  by destruct (lookup_path (join dd "ILSVRC2012_image_urls.p") (fs w))
    as [[?|?]|].
Qed.


(** X12. The indexed-label converter checks its arguments before it
    touches the network or the disk: for a staging directory whose dataset
    directory is not named [ILSVRC2012], or a split other than [train],
    [val] and [test], it fails on an assertion and the world is
    unchanged. *)
Theorem convert_imagenet2012_truths_guard E dataset_directory data_type w :
  (split (split dataset_directory).1).2 ≠ "ILSVRC2012"
  ∨ data_type ∉ ["train"; "val"; "test"] →
  convert_imagenet2012_truths E dataset_directory data_type w
  = (Err (AssertionError BareAssert), w).
Proof.
  intros Hbad. unfold convert_imagenet2012_truths. rewrite bind_run.
  destruct (String.eqb _ "ILSVRC2012") eqn:Hname; [|done].
  cbn [assert mret M_ret]. rewrite bind_run.
  case_bool_decide as Hin; [|done].
  apply String.eqb_eq in Hname. by destruct Hbad.
Qed.

(** X13. The truths stage persists what it converts: when the
    ground-truths file is not there and the stage returns, the converter was
    called on the staging directory and the split and has returned a
    dictionary that is not empty; the stage has bound [truths] to that
    dictionary, and the ground-truths file holds its pickle. *)
Theorem truths_stage_persists dataset convert data_type cd ddir tfile truths
    w tr w' :
  isfile tfile (fs w) = false →
  truths_stage dataset convert data_type cd ddir tfile truths w = (Ok tr, w') →
  ∃ t w0,
    convert cd data_type
      (World (fs w) (log w ++ [Print (MsgConvertingTruths dataset data_type)]))
    = (Ok t, w0)
    ∧ t ≠ ∅
    ∧ tr = Some t
    ∧ stat tfile (fs w') = IsFile (Pickle (map_to_list t))
    ∧ log w' = log w0.
Proof.
  intros Hfile. unfold truths_stage. rewrite bind_run, os_path_isfile_run, Hfile.
  rewrite bind_run, print_run.
  intros (t & w2 & Hconv & H)%bind_Ok.
  apply bind_Ok in H as ([] & w3 & Hassert & H).
  apply bind_Ok in H as ([] & w4 & Hmk & H).
  apply bind_Ok in H as ([] & w5 & Hdump & H).
  injection H as Htr Hw. subst tr w'. exists t, w2.
  assert (t ≠ ∅ ∧ w3 = w2) as [Hne ->].
  { unfold assert in Hassert. case_bool_decide as Ht; [done|].
    by injection Hassert as <-. }
  assert (log w4 = log w2) as Hlog4.
  { clear -Hmk. unfold os_makedirs in Hmk. revert Hmk.
    generalize (@nil string) at 1. revert w2.
    induction ddir as [|c todo IH]; intros w2 base; simpl.
    - intros [= <-]. done.
    - rewrite bind_run. cbn [get_fs fst snd]. destruct todo as [|c2 todo].
      + destruct (_ && _); [by intros [= <-]|].
        unfold os_mkdir. rewrite bind_run. cbn [get_fs fst snd].
        repeat case_match; by intros [= <-].
      + intros ([] & w3 & Hhead & Hrest)%bind_Ok.
        rewrite (IH _ _ Hrest). revert Hhead.
        destruct (exists_ _ _); [by intros [= <-]|].
        unfold os_mkdir. rewrite bind_run. cbn [get_fs fst snd].
        repeat case_match; by intros [= <-]. }
  unfold pickle_dump in Hdump.
  destruct (write_file_cases tfile (Pickle (map_to_list t)) w4)
    as [(_ & Hpar & Hp & Hrun)|[e Hrun]]; rewrite Hrun in Hdump; [|done].
  injection Hdump as <-. cbn [fs log].
  repeat split; [done|done| |done].
  apply stat_lookup_file. by apply lookup_set_path.
Qed.

(** X14. [__extract_tar] deletes the archive it has extracted: when it
    returns, the archive file is gone. *)
Theorem extract_tar_removes_archive E filepath target_directory w w' :
  filepath ≠ [] →
  extract_tar E filepath target_directory w = (Ok (), w') →
  stat filepath (fs w') = Absent.
Proof.
  intros Hne. unfold extract_tar.
  intros (_ & w1 & _ & H)%bind_Ok.
  apply bind_Ok in H as ([bytes|?] & w2 & _ & H); [|done].
  destruct (untar E _ bytes) as [[members complete]|]; [|done].
  apply bind_Ok in H as (_ & w3 & _ & H).
  apply bind_Ok in H as (_ & w4 & _ & H).
  apply bind_Ok in H as (_ & w5 & _ & H). clear w4. rename w5 into w4.
  unfold os_remove in H. rewrite bind_run in H. cbn [get_fs] in H.
  destruct (lookup_path filepath (fs w4)) as [[c|?]|] eqn:Hfile; [|done|done].
  injection H as <-. cbn [fs]. apply stat_set_path_None; [done|].
  apply isdir_stat.
  apply (stat_above (removelast filepath) [List.last filepath ""]); [done|].
  rewrite <- app_removelast_last by done. unfold stat. by rewrite Hfile.
Qed.

End stage_facts.



Lemma download_split_resume_unbound_witness :
  DownloadData.download_split Examples.host_up "ILSVRC2012"
    (DownloadData.convert_imagenet2012_truths Examples.host_up)
    (DownloadData.collect_imagenet2012_images Examples.host_up)
    ["datasets"] None "val" "http://image-net.example/val.tar"
    Examples.world_resume
  = (Err (UnboundLocalError "truths"),
     DownloadData.World (DownloadData.fs Examples.world_resume)
       [DownloadData.Print (DownloadData.MsgRetrievingSplit "ILSVRC2012" "val");
        DownloadData.Print
          (DownloadData.MsgLocalPathExists "http://image-net.example/val.tar"
             ["datasets"; "ILSVRC2012"; "val_compressed"]);
        DownloadData.Print
          (DownloadData.MsgSkippingTruths "ILSVRC2012" "val"
             ["datasets"; "ILSVRC2012"; "val"; "ground_truths.p"]);
        DownloadData.Print (DownloadData.MsgCollectingImages "ILSVRC2012" "val")]).
Proof.
  apply (download_split_resume_unbound Examples.host_up "ILSVRC2012"
           (DownloadData.convert_imagenet2012_truths Examples.host_up)
           (DownloadData.collect_imagenet2012_images Examples.host_up)
           ["datasets"] "val" "http://image-net.example/val.tar"
           Examples.world_resume
           ["datasets"; "ILSVRC2012"; "val_compressed"]
           ["img001.JPEG"; "img002.JPEG"]).
  - reflexivity.
  - reflexivity.
  - reflexivity.
  - reflexivity.
  - vm_compute. reflexivity.
  - discriminate.
Defined.


Lemma main_datasets_no_urls_file_witness :
  DownloadData.main_datasets Examples.host_up ["datasets"] Examples.world_no_urls
  = (Err (DownloadData.missing ["datasets"; "ILSVRC2012_image_urls.p"]
            (DownloadData.fs Examples.world_no_urls)),
     Examples.world_no_urls).
Proof.
  apply (main_datasets_no_urls_file Examples.host_up ["datasets"]
           Examples.world_no_urls).
  reflexivity.
Defined.


Lemma convert_imagenet2012_truths_guard_witness :
  DownloadData.convert_imagenet2012_truths Examples.host_up
    ["datasets"; "VOC2012"; "val_compressed"] "val" Examples.world_fresh
  = (Err (AssertionError BareAssert), Examples.world_fresh).
Proof.
  apply (convert_imagenet2012_truths_guard Examples.host_up
           ["datasets"; "VOC2012"; "val_compressed"] "val" Examples.world_fresh).
  left. discriminate.
Defined.

Lemma truths_stage_persists_witness :
  let run := DownloadData.truths_stage "ILSVRC2012"
               (DownloadData.convert_imagenet2012_truths Examples.host_up) "val"
               ["datasets"; "ILSVRC2012"; "val_compressed"]
               ["datasets"; "ILSVRC2012"; "val"]
               ["datasets"; "ILSVRC2012"; "val"; "ground_truths.p"]
               None Examples.world_annotations in
  ∃ t w0,
    DownloadData.convert_imagenet2012_truths Examples.host_up
      ["datasets"; "ILSVRC2012"; "val_compressed"] "val"
      (DownloadData.World (DownloadData.fs Examples.world_annotations)
         (DownloadData.log Examples.world_annotations
          ++ [DownloadData.Print
                (DownloadData.MsgConvertingTruths "ILSVRC2012" "val")]))
    = (Ok t, w0)
    ∧ t ≠ ∅
    ∧ Some {[ "img001.JPEG" := "5" +:+ Examples.nl ]} = Some t
    ∧ DownloadData.stat ["datasets"; "ILSVRC2012"; "val"; "ground_truths.p"]
        (DownloadData.fs run.2)
      = DownloadData.IsFile (DownloadData.Pickle (map_to_list t))
    ∧ DownloadData.log run.2 = DownloadData.log w0.
Proof.
  intros run.
  apply (truths_stage_persists "ILSVRC2012"
           (DownloadData.convert_imagenet2012_truths Examples.host_up) "val"
           ["datasets"; "ILSVRC2012"; "val_compressed"]
           ["datasets"; "ILSVRC2012"; "val"]
           ["datasets"; "ILSVRC2012"; "val"; "ground_truths.p"]
           None Examples.world_annotations
           (Some {[ "img001.JPEG" := "5" +:+ Examples.nl ]}) run.2).
  - reflexivity.
  - vm_compute. reflexivity.
Defined.

Lemma extract_tar_removes_archive_witness :
  DownloadData.stat ["datasets"; "ILSVRC2012"; "annotations.tar.gz"]
    (DownloadData.fs
       (DownloadData.extract_tar Examples.host_up
          ["datasets"; "ILSVRC2012"; "annotations.tar.gz"]
          ["datasets"; "ILSVRC2012"; "annotations"] Examples.world_archive).2)
  = DownloadData.Absent.
Proof.
  apply (extract_tar_removes_archive Examples.host_up
           ["datasets"; "ILSVRC2012"; "annotations.tar.gz"]
           ["datasets"; "ILSVRC2012"; "annotations"] Examples.world_archive).
  - discriminate.
  - vm_compute. reflexivity.
Defined.


Lemma main_datasets_confined_witness :
  DownloadData.preserved ["weights"; "alexnet.h5"]
    (DownloadData.fs Examples.world_with_urls)
    (DownloadData.fs
       (DownloadData.main_datasets Examples.host_up ["datasets"]
          Examples.world_with_urls).2).
Proof.
  apply (main_datasets_confined Examples.host_up ["datasets"]
           Examples.world_with_urls ["weights"; "alexnet.h5"]).
  - apply demo_archives_plain.
  - reflexivity.
  - reflexivity.
  - reflexivity.
  - intros [k Hk]. discriminate Hk.
  - intros [k Hk]. discriminate Hk.
Defined.

Lemma main_datasets_idempotent_witness :
  let first := DownloadData.main_datasets Examples.host_up ["datasets"]
                 Examples.world_with_urls in
  DownloadData.main_datasets Examples.host_down ["datasets"] first.2
  = (Ok (), DownloadData.World (DownloadData.fs first.2)
              (DownloadData.log first.2
               ++ (if bool_decide
                        ([("val", "http://image-net.example/val.tar")]
                         = ([] : list (string * string)))
                   then [DownloadData.Print
                           DownloadData.MsgImageUrlsMustNotBeDistributed]
                   else map (λ x, DownloadData.Print
                                    (DownloadData.MsgSkipping "ILSVRC2012" x.1))
                          [("val", "http://image-net.example/val.tar")])
               ++ [DownloadData.Print (DownloadData.MsgSkipping "VOC2012" "train");
                   DownloadData.Print (DownloadData.MsgSkipping "VOC2012" "val")])).
Proof.
  intros first.
  apply (main_datasets_idempotent Examples.host_up Examples.host_down
           ["datasets"] Examples.world_with_urls first.2
           [("val", "http://image-net.example/val.tar")]).
  - apply demo_archives_plain.
  - reflexivity.
  - reflexivity.
  - reflexivity.
  - reflexivity.
  - reflexivity.
  - intros t Ht. apply list_elem_of_singleton in Ht. by subst t.
  - vm_compute. reflexivity.
Defined.

(** * Collected images and converted lines *)

Section collect_facts.
Import DownloadData Examples.

Lemma has_count a s : has a s = false ↔ count a s = 0.
Proof.
  induction s as [|b s IH]; [done|]. simpl.
  destruct (Ascii.eqb b a); simpl; [split; [done | lia] | exact IH].
Qed.

Lemma count_one a s :
  count a s = 1 →
  ∃ f t, s = f +:+ String a t ∧ has a f = false ∧ has a t = false.
Proof.
  induction s as [|b s IH]; [done|]. simpl.
  destruct (Ascii.eqb b a) eqn:Hb; simpl.
  - intros [= Hs]. apply Ascii.eqb_eq in Hb as ->.
    exists EmptyString, s. split; [done|]. split; [done | by apply has_count].
  - intros (f & t & -> & Hf & Ht)%IH. exists (String b f), t.
    split; [done|]. split; [|done]. simpl. by rewrite Hb.
Qed.

Lemma str_split_length sep s : length (str_split sep s) = S (count sep s).
Proof.
  induction s as [|b s IH]; [done|]. simpl.
  destruct (Ascii.eqb b sep); simpl; [by rewrite IH|].
  destruct (str_split sep s); simpl in *; [done | lia].
Qed.

(** X18. A line of the annotation file is unpacked into exactly two
    fields: a line with one space adds the entry from the text before the
    space to the text after it, and a line with no space or with more than
    one raises [ValueError] and adds nothing. *)
Theorem convert_imagenet2012_line_arity line truths w :
  (count SP line = 1 →
   ∃ filename truth,
     line = filename +:+ String SP truth
     ∧ convert_imagenet2012_line line truths w
       = (Ok (<[filename := truth]> truths), w))
  ∧ (count SP line ≠ 1 →
     convert_imagenet2012_line line truths w = (Err ValueError, w)).
Proof.
  split.
  - intros (f & t & -> & Hf & Ht)%count_one. exists f, t. split; [done|].
    unfold convert_imagenet2012_line. by rewrite str_split_one.
  - intros Hcount. unfold convert_imagenet2012_line.
    pose proof (str_split_length SP line) as Hlen.
    destruct (str_split SP line) as [|? [|? [|? ?]]]; simpl in Hlen;
      try done. lia.
Qed.

Lemma strip_directory_join E images_directory name :
  cwd E ++ images_directory ≠ [] →
  strip_directory E images_directory (join images_directory name) = name.
Proof.
  intros Hne. unfold strip_directory, split, join. cbn [snd].
  rewrite !last_last.
  rewrite bool_decide_eq_true_2 by done.
  by rewrite bool_decide_eq_false_2.
Qed.

(** X19. [__collect_images] reads the directory and changes nothing.  For
    a directory whose absolute path has no wildcard character and is not
    the root, and an extension without wildcard or separator, it returns
    the directory itself and, without repetition, exactly the names of its
    entries that end with [.<filetype>] and do not begin with a dot; for a
    directory that does not exist the list is empty. *)
Theorem collect_images_listing E images_directory filetype w :
  literal_pattern (cwd E ++ images_directory) filetype = true →
  cwd E ++ images_directory ≠ [] →
  ∃ files,
    collect_images E images_directory filetype w
    = (Ok (images_directory, files), w)
    ∧ NoDup files
    ∧ ∀ f, f ∈ files
           ↔ stat (join images_directory f) (fs w) ≠ Absent
             ∧ endswith f ("." +:+ filetype) = true
             ∧ startswith f "." = false.
Proof.
  intros Hlit Hroot.
  unfold collect_images, glob. rewrite !bind_run. cbn [get_fs fst snd].
  rewrite Hlit. cbn [mret M_ret].
  assert (∀ f, stat (join images_directory f) (fs w)
               = match lookup_path images_directory (fs w) with
                 | Some (Dir entries) =>
                     match entries !! f with
                     | Some (File c) => IsFile c
                     | Some (Dir _) => IsDir
                     | None => Absent
                     end
                 | _ => Absent
                 end) as Hstat.
  { intros f. unfold stat, join. rewrite lookup_path_app.
    destruct (lookup_path images_directory (fs w)) as [[c|entries]|]; try done.
    simpl. by destruct (entries !! f) as [[]|]. }
  destruct (lookup_path images_directory (fs w)) as [[c|entries]|] eqn:Hdir.
  2: {
    eexists. split; [reflexivity|]. rewrite !map_map.
    erewrite map_ext; [|intros name; by apply strip_directory_join].
    rewrite map_id. split.
    - apply NoDup_ListNoDup, List.NoDup_filter, NoDup_ListNoDup,
        NoDup_fst_map_to_list.
    - intros f. rewrite Hstat, list_elem_of_In, filter_In, <- list_elem_of_In.
      rewrite andb_true_iff, negb_true_iff.
      assert (f ∈ (map_to_list entries).*1 ↔ is_Some (entries !! f)) as ->.
      { rewrite list_elem_of_fmap. split.
        - intros ([k v] & -> & Hkv). apply elem_of_map_to_list in Hkv. by eexists.
        - intros [v Hv]. exists (f, v). split; [done|].
          by apply elem_of_map_to_list. }
      destruct (entries !! f) as [[]|]; split; intros [H1 H2];
        (split; [|exact H2]); try done; try by eexists.
      all: by destruct H1 as [? [=]]. }
  all: exists []; split; [done|]; split; [constructor|];
    intros f; rewrite Hstat; split; [by intros ?%elem_of_nil | by intros [? _]].
Qed.

End collect_facts.

(** * The images directory of a split *)

Section images_facts.
Import DownloadData.

Lemma size_list_to_set_le (l : list string) :
  (size (list_to_set l : gset string) ≤ length l)%nat.
Proof.
  induction l as [|x l IH]; [done|]. simpl.
  rewrite size_union_alt, size_singleton.
  assert (size ((list_to_set l : gset string) ∖ {[x]})
          ≤ size (list_to_set l : gset string))%nat
    by (apply subseteq_size; set_solver).
  lia.
Qed.

Lemma size_list_to_set_NoDup (l : list string) :
  length l = size (list_to_set l : gset string) → NoDup l.
Proof.
  induction l as [|x l IH]; [constructor|]. simpl. intros Hlen.
  pose proof (size_list_to_set_le l) as Hle.
  destruct (decide (x ∈ l)) as [Hin|Hnotin].
  - assert (({[x]} ∪ list_to_set l : gset string) = list_to_set l) as Heq
      by set_solver.
    rewrite Heq in Hlen. lia.
  - constructor; [done|]. apply IH.
    rewrite size_union_alt, size_singleton in Hlen.
    assert ((list_to_set l : gset string) ∖ {[x]} = list_to_set l) as Heq
      by set_solver.
    rewrite Heq in Hlen. lia.
Qed.

(** A directory made by [os.makedirs] without [exist_ok] is empty. *)
Lemma makedirs_from_fresh base todo w w' f :
  todo ≠ [] → makedirs_from base todo false w = (Ok (), w') →
  stat (join (base ++ todo) f) (fs w') = Absent.
Proof.
  revert base w. induction todo as [|c todo IH]; intros base w Hne; [done|].
  simpl. rewrite bind_run. cbn [get_fs fst snd]. destruct todo as [|c2 todo].
  - rewrite andb_false_r. cbn [andb]. unfold os_mkdir. rewrite bind_run.
    cbn [get_fs fst snd].
    destruct (exists_ (join base c) (fs w)) eqn:Hex; [done|].
    destruct (isdir (removelast (join base c)) (fs w)) eqn:Hpar; [|done].
    intros [= <-]. cbn [fs]. unfold stat, join. rewrite lookup_path_app.
    fold (join base c).
    rewrite lookup_set_path; [|unfold join; by destruct base|done].
    simpl. by rewrite lookup_empty.
  - intros (_ & w1 & _ & H)%bind_Ok.
    replace (base ++ c :: c2 :: todo) with (join base c ++ c2 :: todo)
      by (unfold join; by rewrite <- app_assoc).
    by apply (IH (join base c) w1).
Qed.

(** One image moved into the images directory. *)
Lemma move_into src idir g w w1 :
  stat idir (fs w) = IsDir →
  stat (join idir g) (fs w) = Absent →
  shutil_move (join src g) (join idir g) w = (Ok (), w1) →
  stat idir (fs w1) = IsDir
  ∧ stat (join idir g) (fs w1) ≠ Absent
  ∧ ∀ f, f ≠ g → stat (join idir f) (fs w1) = stat (join idir f) (fs w).
Proof.
  intros Hidir Habsent Hmove.
  pose proof (shutil_move_cases (join src g) (join idir g) w) as Hcases.
  rewrite (isdir_of_stat (join idir g)), Habsent in Hcases.
  destruct Hcases as [[e He]|[Hnoop|(n & Hn & Hpar & Hpre & Hrun)]].
  - by rewrite He in Hmove.
  - (* a rename onto itself: the source is the destination, which is absent *)
    exfalso. unfold shutil_move in Hnoop. rewrite bind_run in Hnoop.
    cbn [get_fs fst snd] in Hnoop.
    rewrite (isdir_of_stat (join idir g)), Habsent in Hnoop. cbn [andb] in Hnoop.
    destruct (lookup_path (join src g) (fs w)) as [n|] eqn:Hn; [|done].
    case_bool_decide as Heq.
    + unfold stat in Habsent. rewrite <- Heq, Hn in Habsent. by destruct n.
    + case_bool_decide; [done|].
      destruct (negb _); [done|]. destruct (_ && _); [done|].
      destruct w as [root l]. cbn [fs log] in *. injection Hnoop as Hfs.
      assert (stat (join idir g)
                (set_path (join idir g) (Some n)
                   (set_path (join src g) None root)) ≠ Absent) as Hgoal;
        [|by rewrite Hfs in Hgoal].
      unfold stat.
      rewrite lookup_set_path; [by destruct n|unfold join; by destruct idir|].
      rewrite removelast_join, isdir_of_stat, stat_set_path;
        [by rewrite Hidir|].
      intros Hp. apply H. etrans; [exact Hp|]. by apply prefix_app_r.
  - rewrite Hrun in Hmove. injection Hmove as <-. cbn [fs].
    rewrite removelast_join in Hpar.
    assert (¬ join src g `prefix_of` idir) as Hsrc.
    { intros Hp. apply Hpre. etrans; [exact Hp|]. by apply prefix_app_r. }
    assert (isdir idir (set_path (join src g) None (fs w)) = true) as Hidir2.
    { by rewrite isdir_of_stat, stat_set_path, Hidir. }
    split; [|split].
    + rewrite stat_set_path by apply prefix_snoc_not.
      by rewrite stat_set_path.
    + unfold stat. rewrite lookup_set_path;
        [by destruct n | unfold join; by destruct idir
        | by rewrite removelast_join].
    + intros f Hfg. rewrite stat_set_path.
      * apply stat_set_path. intros Hp.
        destruct Hp as [k Hk]. unfold join in Hk.
        destruct k as [|x k].
        -- rewrite app_nil_r in Hk. apply app_inj_tail in Hk as [_ ?]. done.
        -- destruct (@List.exists_last _ (x :: k)) as (k' & a & Hka); [done|].
           rewrite Hka, app_assoc in Hk. apply app_inj_tail in Hk as [Hk _].
           apply Hsrc. by exists k'.
      * unfold join. intros Hp%prefix_app_inv.
        destruct Hp as [k Hk]. by injection Hk.
Qed.

(** The loop that moves the images. *)
Lemma for_each_moves src idir files w w' (D : list string) :
  NoDup files → (∀ f, f ∈ files → f ∉ D) →
  stat idir (fs w) = IsDir →
  (∀ f, stat (join idir f) (fs w) ≠ Absent ↔ f ∈ D) →
  for_each files (λ f, shutil_move (join src f) (join idir f)) w = (Ok (), w') →
  stat idir (fs w') = IsDir
  ∧ ∀ f, stat (join idir f) (fs w') ≠ Absent ↔ f ∈ D ∨ f ∈ files.
Proof.
  intros Hnodup. revert w D.
  induction Hnodup as [|g files Hg Hnodup IH]; intros w D Hfresh Hidir Hin.
  - simpl. intros [= <-]. split; [done|]. intros f. rewrite Hin.
    split; [by left | by intros [?|?%elem_of_nil]].
  - simpl. intros ([] & w1 & Hmove & Hrest)%bind_Ok.
    assert (stat (join idir g) (fs w) = Absent) as Habsent.
    { destruct (stat (join idir g) (fs w)) eqn:Hs; [done| |].
      - exfalso. apply (Hfresh g); [by left|]. apply Hin. by rewrite Hs.
      - exfalso. apply (Hfresh g); [by left|]. apply Hin. by rewrite Hs. }
    destruct (move_into src idir g w w1 Hidir Habsent Hmove)
      as (Hidir1 & Hg1 & Hothers).
    destruct (IH w1 (g :: D)) as [Hidir' Hin']; [| |  |done|].
    + intros f Hf [->|HD]%elem_of_cons; [done|].
      apply (Hfresh f); [by right | done].
    + done.
    + intros f. destruct (decide (f = g)) as [->|Hfg].
      * split; [intros _; by left | done].
      * rewrite Hothers by done. rewrite Hin. split; [by right|].
        by intros [?|?]%elem_of_cons.
    + split; [done|]. intros f. rewrite Hin'. rewrite !elem_of_cons. tauto.
Qed.

(** X20. The set-equality invariant of a split.  When the images stage
    runs (the images directory is not there yet) and returns, the names of
    the entries of the images directory are exactly the keys of the truths
    mapping. *)
Theorem images_stage_set_equality dataset collect data_type cd idir truths w w' :
  isdir idir (fs w) = false →
  (∀ f, ¬ cd `prefix_of` join idir f) →
  images_stage dataset collect data_type cd idir truths w = (Ok (), w') →
  ∃ t, truths = Some t
       ∧ ∀ f, stat (join idir f) (fs w') ≠ Absent ↔ f ∈ dom t.
Proof.
  intros Hdir Hcd. unfold images_stage.
  rewrite bind_run, os_path_isdir_run, Hdir.
  intros (_ & w1 & _ & H)%bind_Ok.
  apply bind_Ok in H as ([src files] & w2 & _ & H). cbn [fst snd] in H.
  apply bind_Ok in H as (_ & w3 & _ & H).
  destruct truths as [t|]; [|done]. exists t. split; [done|].
  apply bind_Ok in H as ([] & w4 & Hcount & H).
  apply bind_Ok in H as ([] & w5 & Hsets & H).
  apply bind_Ok in H as ([] & w6 & Hmk & H).
  apply bind_Ok in H as ([] & w7 & Hmoves & Hrm).
  (* what the assertions say *)
  unfold assert in Hcount, Hsets.
  destruct (bool_decide (length files = size t)) eqn:Hlen; [|done].
  clear Hcount. apply bool_decide_eq_true in Hlen.
  destruct (bool_decide (list_to_set files ∖ dom t = ∅)) eqn:H1; [|done].
  destruct (bool_decide (dom t ∖ list_to_set files = ∅)) eqn:H2; [|done].
  clear Hsets. apply bool_decide_eq_true in H1, H2.
  pose proof (difference_empty_eq _ _ H1 H2) as Hset.
  assert (NoDup files) as Hnodup.
  { apply size_list_to_set_NoDup. by rewrite Hset, size_dom. }
  (* the directory is made, empty *)
  assert (idir ≠ []) as Hne.
  { intros ->. unfold os_makedirs in Hmk. simpl in Hmk. done. }
  assert (stat idir (fs w6) = IsDir) as Hidir.
  { apply isdir_stat. by apply (makedirs_from_Ok [] idir false w5). }
  destruct (for_each_moves src idir files w6 w7 [] Hnodup) as [Hidir7 Hin];
    [by intros f _ ?%elem_of_nil | done | | done |].
  { intros f.
    pose proof (makedirs_from_fresh [] idir w5 w6 f Hne Hmk) as Hf.
    rewrite app_nil_l in Hf. rewrite Hf.
    split; [done | by intros ?%elem_of_nil]. }
  (* the staging directory goes *)
  unfold shutil_rmtree in Hrm. rewrite bind_run in Hrm.
  cbn [get_fs fst snd] in Hrm.
  destruct (lookup_path cd (fs w7)) as [[c|entries]|]; [done| |done].
  injection Hrm as <-. cbn [fs]. intros f.
  rewrite stat_set_path by apply Hcd. rewrite Hin.
  rewrite <- Hset, elem_of_list_to_set. split; [by intros [?%elem_of_nil|?] | by right].
Qed.

End images_facts.

Lemma images_stage_set_equality_witness :
  ∃ t, Some ({[ "img001.JPEG" := "5"; "img002.JPEG" := "7" ]} : gmap string string)
       = Some t
       ∧ ∀ f,
           DownloadData.stat
             (DownloadData.join ["datasets"; "ILSVRC2012"; "val"; "images"] f)
             (DownloadData.fs
                (DownloadData.images_stage "ILSVRC2012"
                   (DownloadData.collect_imagenet2012_images Examples.host_up)
                   "val" ["datasets"; "ILSVRC2012"; "val_compressed"]
                   ["datasets"; "ILSVRC2012"; "val"; "images"]
                   (Some {[ "img001.JPEG" := "5"; "img002.JPEG" := "7" ]})
                   Examples.world_resume).2)
           ≠ DownloadData.Absent
           ↔ f ∈ dom t.
Proof.
  apply (images_stage_set_equality "ILSVRC2012"
           (DownloadData.collect_imagenet2012_images Examples.host_up)
           "val" ["datasets"; "ILSVRC2012"; "val_compressed"]
           ["datasets"; "ILSVRC2012"; "val"; "images"]
           (Some {[ "img001.JPEG" := "5"; "img002.JPEG" := "7" ]})
           Examples.world_resume).
  - reflexivity.
  - intros f [k Hk]. discriminate Hk.
  - vm_compute. reflexivity.
Defined.

Lemma collect_images_listing_witness :
  ∃ files,
    DownloadData.collect_images Examples.host_up
      ["datasets"; "ILSVRC2012"; "val_compressed"] "JPEG" Examples.world_resume
    = (Ok (["datasets"; "ILSVRC2012"; "val_compressed"], files),
       Examples.world_resume)
    ∧ NoDup files
    ∧ ∀ f, f ∈ files
           ↔ DownloadData.stat
               (DownloadData.join ["datasets"; "ILSVRC2012"; "val_compressed"] f)
               (DownloadData.fs Examples.world_resume)
             ≠ DownloadData.Absent
             ∧ DownloadData.endswith f ("." +:+ "JPEG") = true
             ∧ DownloadData.startswith f "." = false.
Proof.
  apply (collect_images_listing Examples.host_up
           ["datasets"; "ILSVRC2012"; "val_compressed"] "JPEG"
           Examples.world_resume).
  - reflexivity.
  - discriminate.
Defined.

Lemma convert_imagenet2012_line_arity_witness :
  ∃ filename truth,
    "img001.JPEG 5" = filename +:+ String DownloadData.SP truth
    ∧ DownloadData.convert_imagenet2012_line "img001.JPEG 5" ∅
        Examples.world_fresh
      = (Ok (<[filename := truth]> ∅), Examples.world_fresh).
Proof.
  apply (proj1 (convert_imagenet2012_line_arity "img001.JPEG 5" ∅
                  Examples.world_fresh)).
  reflexivity.
Defined.
